(** * scripts/generate_cursor_plugin.py

    A shallow embedding of the generator of the Cursor plugin artefacts
    ([.cursor-plugin/plugin.json] and [.mcp.json]) and the properties of
    it that the specification states.

    Conventions of the embedding:
    - a Python [str] is the list of its code points ([list N], each
      below [0x110000]);
    - a parsed JSON document is a value of [json]; a [dict] is an
      association list in insertion order, read and updated through
      [dict_get], [dict_in] and [dict_set];
    - the directory tree below [ROOT] is a value of [node], in which a
      regular file is the text that reading it gives, or is [Binary]
      when its bytes are not UTF-8; paths are lists of components
      relative to [ROOT];
    - a function that may raise returns a [result];
    - [json.loads], [json.dumps] and the argument parser of [argparse]
      belong to Python's standard library and are parameters of the
      development. *)

From Stdlib Require Import ZArith NArith List String Ascii.
From Stdlib Require Import Floats.SpecFloat.
From stdpp Require Import gmap list sorting.
Import ListNotations.

Set Warnings "-register-all".
Set Default Proof Using "Type".

(** ** Python strings *)

Module Py.

Definition str := list N.

(** A literal of the source, as a list of code points. *)
Definition str_of (s : string) : str :=
  map N_of_ascii (list_ascii_of_string s).

Definition in_range (lo hi c : N) : bool := (lo <=? c)%N && (c <=? hi)%N.

(** [str.isspace] on one code point; also the class [\s] of [re] on
    [str] patterns. *)
Definition is_space (c : N) : bool :=
  in_range 9 13 c || in_range 28 32 c || (c =? 133)%N || (c =? 160)%N
  || (c =? 5760)%N || in_range 8192 8202 c || in_range 8232 8233 c
  || (c =? 8239)%N || (c =? 8287)%N || (c =? 12288)%N.

(** The line boundaries of [str.splitlines], [\r\n] apart. *)
Definition is_linebreak (c : N) : bool :=
  in_range 10 13 c || in_range 28 30 c || (c =? 133)%N
  || in_range 8232 8233 c.

Fixpoint lstrip (s : str) : str :=
  match s with
  | c :: t => if is_space c then lstrip t else s
  | [] => []
  end.

Definition rstrip (s : str) : str := rev (lstrip (rev s)).

(** [s.strip()] *)
Definition strip (s : str) : str := rstrip (lstrip s).

(** [s.splitlines()]: [cur] is the line being read. *)
Fixpoint splitlines_from (cur : str) (s : str) : list str :=
  match s with
  | [] => match cur with [] => [] | _ => [cur] end
  | c :: t =>
      if (c =? 13)%N then
        match t with
        | c' :: t' =>
            if (c' =? 10)%N then cur :: splitlines_from [] t'
            else cur :: splitlines_from [] t
        | [] => cur :: splitlines_from [] t
        end
      else if is_linebreak c then cur :: splitlines_from [] t
      else splitlines_from (cur ++ [c]) t
  end.

Definition splitlines (s : str) : list str := splitlines_from [] s.

Definition colon : N := 58.

(** [":" in line] *)
Definition has_colon (line : str) : bool := existsb (N.eqb colon) line.

(** [line.split(":", 1)] for a line that holds a colon: what is before
    the first colon and what is after it. *)
Fixpoint split_colon (line : str) : str * str :=
  match line with
  | [] => ([], [])
  | c :: t =>
      if (c =? colon)%N then ([], t)
      else let '(k, v) := split_colon t in (c :: k, v)
  end.

Definition str_eqb (a b : str) : bool := bool_decide (a = b).

(** A surrogate code point; alone in a [str], it has no UTF-8 encoding. *)
Definition is_surrogate (c : N) : bool := in_range 55296 57343 c.

(** [s.encode("utf-8")] does not raise. *)
Definition encodable (s : str) : bool :=
  forallb (fun c => negb (is_surrogate c)) s.

(** Lexicographic order on code points: [<=] of [str]. *)
Fixpoint str_leb (a b : str) : bool :=
  match a, b with
  | [], _ => true
  | _ :: _, [] => false
  | x :: a', y :: b' =>
      if (x <? y)%N then true
      else if (y <? x)%N then false
      else str_leb a' b'
  end.

End Py.
Export Py.

(** ** The fragment of [re] that the script uses

    A backtracking matcher with the priorities of [re]: a greedy
    quantifier tries the longest repetition first, a lazy one the
    shortest, and the first successful path decides the match and its
    group. Quantified sub-patterns of the script are single character
    classes, and so are the stars here. *)

Module Re.

Inductive regex :=
| Eps
| Bos                         (* ^ without MULTILINE *)
| Eos                         (* $ without MULTILINE *)
| Chr (p : N -> bool)         (* one character of a class *)
| Seq (r1 r2 : regex)
| Opt (r : regex)             (* (?:r)? *)
| Star (p : N -> bool)        (* p* *)
| StarLazy (p : N -> bool)    (* p*? *)
| Group (r : regex).          (* the capture group 1 *)

Record mstate := MState { pos : nat; rest : str; grp : option str }.

Definition advance (st : mstate) (t : str) : mstate :=
  MState (S (pos st)) t (grp st).

(** Where [$] matches: at the end, and before a line feed that ends the
    string. *)
Definition at_end (s : str) : bool :=
  match s with
  | [] => true
  | [c] => (c =? 10)%N
  | _ => false
  end.

Section run.
Context {A : Type}.

Fixpoint star (p : N -> bool) (n : nat) (s : str) (g : option str)
    (k : mstate -> option A) : option A :=
  match s with
  | c :: t =>
      if p c then
        match star p (S n) t g k with
        | Some m => Some m
        | None => k (MState n s g)
        end
      else k (MState n s g)
  | [] => k (MState n s g)
  end.

Fixpoint star_lazy (p : N -> bool) (n : nat) (s : str) (g : option str)
    (k : mstate -> option A) : option A :=
  match k (MState n s g) with
  | Some m => Some m
  | None =>
      match s with
      | c :: t => if p c then star_lazy p (S n) t g k else None
      | [] => None
      end
  end.

Fixpoint run (r : regex) (st : mstate) (k : mstate -> option A)
    : option A :=
  match r with
  | Eps => k st
  | Bos => match pos st with O => k st | S _ => None end
  | Eos => if at_end (rest st) then k st else None
  | Chr p =>
      match rest st with
      | c :: t => if p c then k (advance st t) else None
      | [] => None
      end
  | Seq r1 r2 => run r1 st (fun st' => run r2 st' k)
  | Opt r1 =>
      match run r1 st k with
      | Some m => Some m
      | None => k st
      end
  | Star p => star p (pos st) (rest st) (grp st) k
  | StarLazy p => star_lazy p (pos st) (rest st) (grp st) k
  | Group r1 =>
      run r1 st (fun st' =>
        k (MState (pos st') (rest st')
             (Some (take (pos st' - pos st) (rest st)))))
  end.

End run.

(** [pattern.match(s)]: a match that starts at the first character. *)
Definition re_match (r : regex) (s : str) : option mstate :=
  run r (MState 0 s None) Some.

(** [re.search(pattern, s)]: the first start position that matches. *)
Fixpoint search_from (r : regex) (n : nat) (s : str) : option mstate :=
  match run r (MState n s None) Some with
  | Some m => Some m
  | None =>
      match s with
      | _ :: t => search_from r (S n) t
      | [] => None
      end
  end.

Definition re_search (r : regex) (s : str) : option mstate :=
  search_from r 0 s.

(** [match.group(1)] *)
Definition group1 (m : mstate) : str := default [] (grp m).

(** A literal string as a pattern. *)
Definition lit (s : str) : regex :=
  fold_right (fun c r => Seq (Chr (N.eqb c)) r) Eps s.

Definition any_char (_ : N) : bool := true.

End Re.
Export Re.

(** ** Python values, dictionaries, exceptions *)

Module Value.

(** What [json.loads] returns. *)
Inductive json :=
| JNull
| JBool (b : bool)
| JInt (z : Z)
| JFloat (f : spec_float)
| JStr (s : str)
| JList (l : list json)
| JDict (d : list (str * json)).

(** Truth value of an object, as [or] and [not] test it. *)
Definition truthy (v : json) : bool :=
  match v with
  | JNull => false
  | JBool b => b
  | JInt z => negb (z =? 0)%Z
  | JFloat f => match f with S754_zero _ => false | _ => true end
  | JStr s => match s with [] => false | _ => true end
  | JList l => match l with [] => false | _ => true end
  | JDict d => match d with [] => false | _ => true end
  end.

(** [a or b] *)
Definition py_or (a b : json) : json := if truthy a then a else b.

(** A [dict] with [str] keys, in insertion order. *)
Definition dict (V : Type) := list (str * V).

Fixpoint dict_get {V} (k : str) (d : dict V) : option V :=
  match d with
  | [] => None
  | (k', v) :: t => if str_eqb k k' then Some v else dict_get k t
  end.

(** [k in d] *)
Definition dict_in {V} (k : str) (d : dict V) : bool :=
  match dict_get k d with Some _ => true | None => false end.

(** [d[k] = v]: an existing key keeps its place, a new one goes last. *)
Fixpoint dict_set {V} (k : str) (v : V) (d : dict V) : dict V :=
  match d with
  | [] => [(k, v)]
  | (k', v') :: t =>
      if str_eqb k k' then (k, v) :: t else (k', v') :: dict_set k v t
  end.

(** [d.get(k)] on a parsed document: [None] when the key is missing. *)
Definition get (k : str) (d : dict json) : json :=
  default JNull (dict_get k d).

Definition path := list str.

Inductive exn :=
| FileNotFoundError (p : path)
| IsADirectoryError (p : path)
| NotADirectoryError (p : path)
| FileExistsError (p : path)
| UnicodeDecodeError
| UnicodeEncodeError
| JSONDecodeError
| AttributeError
| ValueError (msg : str).

Inductive result (A : Type) :=
| Ok (a : A)
| Raise (e : exn).
Arguments Ok {A} a.
Arguments Raise {A} e.

#[global] Instance result_ret : MRet result := @Ok.
#[global] Instance result_bind : MBind result := fun A B f r =>
  match r with
  | Ok a => f a
  | Raise e => Raise e
  end.
#[global] Instance result_fmap : FMap result := fun A B f r =>
  match r with
  | Ok a => Ok (f a)
  | Raise e => Raise e
  end.

End Value.
Export Value.

(** ** The directory tree below [ROOT] *)

Module Fs.

(** A regular file is kept as the text that reading it gives, when its
    bytes are UTF-8; [Binary] is a regular file whose bytes are not. *)
Inductive node :=
| File (text : str)
| Binary
| Dir (entries : gmap str node).

Fixpoint lookup_path (n : node) (p : path) : option node :=
  match p with
  | [] => Some n
  | c :: p' =>
      match n with
      | Dir es =>
          match es !! c with
          | Some child => lookup_path child p'
          | None => None
          end
      | File _ | Binary => None
      end
  end.

(** [path.exists()] *)
Definition path_exists (t : node) (p : path) : bool :=
  match lookup_path t p with Some _ => true | None => false end.

(** What [open] raises for a path that does not exist: a component is
    missing, or is looked for below a regular file. *)
Fixpoint open_missing (full : path) (n : node) (p : path) : exn :=
  match n, p with
  | Dir es, c :: p' =>
      match es !! c with
      | Some child => open_missing full child p'
      | None => FileNotFoundError full
      end
  | _, _ => NotADirectoryError full
  end.

(** [path.read_text(encoding="utf-8")] *)
Definition read_text (t : node) (p : path) : result str :=
  match lookup_path t p with
  | Some (File text) => Ok text
  | Some Binary => Raise UnicodeDecodeError
  | Some (Dir _) => Raise (IsADirectoryError p)
  | None => Raise (open_missing p t p)
  end.

(** [path.mkdir(parents=True, exist_ok=True)], for the path [p] below the
    node [n]; [full] is the whole path, for the exception. *)
Fixpoint mkdir_below (full : path) (n : node) (p : path) : result node :=
  match n, p with
  | (File _ | Binary), [] => Raise (FileExistsError full)
  | (File _ | Binary), _ :: _ => Raise (NotADirectoryError full)
  | Dir _, [] => Ok n
  | Dir es, c :: p' =>
      child ← mkdir_below full (default (Dir ∅) (es !! c)) p';
      Ok (Dir (<[c := child]> es))
  end.

Definition mkdir_parents (t : node) (p : path) : result node :=
  mkdir_below p t p.

(** The tree in which the file at [p], below the node [n], is created or
    replaced and holds [content]: what opening the path for writing and
    writing [content] leaves. [open] raises when the path is a directory
    or its parent is not one. *)
Fixpoint write_below (full : path) (content : str) (n : node) (p : path)
    : result node :=
  match n, p with
  | _, [] => Raise (IsADirectoryError full)
  | (File _ | Binary), _ :: _ => Raise (NotADirectoryError full)
  | Dir es, [c] =>
      match es !! c with
      | Some (Dir _) => Raise (IsADirectoryError full)
      | _ => Ok (Dir (<[c := File content]> es))
      end
  | Dir es, c :: p' =>
      match es !! c with
      | Some child =>
          child' ← write_below full content child p';
          Ok (Dir (<[c := child']> es))
      | None => Raise (FileNotFoundError full)
      end
  end.

(** Two trees with the same entry [k] at the top. *)
Definition same_entry (k : str) (t t' : node) : Prop :=
  lookup_path t [k] = lookup_path t' [k].

(** [path.parent] *)
Definition parent (p : path) : path := removelast p.

(** Order of [pathlib] paths: the order of their lists of parts. *)
Fixpoint path_leb (p q : path) : bool :=
  match p, q with
  | [], _ => true
  | _ :: _, [] => false
  | a :: p', b :: q' =>
      if str_eqb a b then path_leb p' q' else str_leb a b
  end.

(** [sorted(paths)] *)
Definition sorted_paths (ps : list path) : list path :=
  merge_sort (fun p q => Is_true (path_leb p q)) ps.

(** [str(path)] of a path relative to [ROOT]. *)
Fixpoint path_str (p : path) : str :=
  match p with
  | [] => str_of "."
  | [c] => c
  | c :: p' => c ++ str_of "/" ++ path_str p'
  end.

(** The calls that touched the tree: [mkdir] returned, [write_text]
    opened the file that it was to write [content] to. *)
Inductive event :=
| Mkdir (p : path)
| WriteText (p : path) (content : str).

(** The tree and what the run has done to it so far. *)
Record world := World { tree : node; trace : list event }.

(** A computation that reads and writes the tree and may raise. *)
Definition M (A : Type) := world -> result A * world.

#[global] Instance M_ret : MRet M := fun A a w => (Ok a, w).
#[global] Instance M_bind : MBind M := fun A B f m w =>
  match m w with
  | (Ok a, w') => f a w'
  | (Raise e, w') => (Raise e, w')
  end.

(** A computation that only reads. *)
Definition reading {A} (f : node -> result A) : M A :=
  fun w => (f (tree w), w).

(** [path.mkdir(parents=True, exist_ok=True)] *)
Definition mkdir (p : path) : M unit := fun w =>
  match mkdir_parents (tree w) p with
  | Ok t => (Ok tt, World t (trace w ++ [Mkdir p]))
  | Raise e => (Raise e, w)
  end.

(** [path.write_text(content, encoding="utf-8")]. The file is opened for
    writing, which creates it or empties it, and the content is encoded
    as a whole before any of it is written: with a lone surrogate in the
    content the call raises and the file stays empty. When [open] raises
    the tree is as it was. A file that is written is kept as the text it
    was given: [json.dumps] escapes the control characters, so that what
    the script writes holds no carriage return for the text mode to
    translate when the file is read. *)
Definition write_text (p : path) (content : str) : M unit := fun w =>
  let written := if encodable content then content else [] in
  match write_below p written (tree w) p with
  | Ok t =>
      (if encodable content then Ok tt else Raise UnicodeEncodeError,
       World t (trace w ++ [WriteText p content]))
  | Raise e => (Raise e, w)
  end.

End Fs.
Export Fs.

(** ** The script *)

Module Script.

Definition CLAUDE_PLUGIN_MANIFEST : path :=
  [str_of ".claude-plugin"; str_of "plugin.json"].
Definition GEMINI_EXTENSION : path := [str_of "gemini-extension.json"].
Definition CURSOR_PLUGIN_DIR : path := [str_of ".cursor-plugin"].
Definition CURSOR_PLUGIN_MANIFEST : path :=
  CURSOR_PLUGIN_DIR ++ [str_of "plugin.json"].
Definition CURSOR_MCP_CONFIG : path := [str_of ".mcp.json"].

Definition DEFAULT_MCP_SERVER_NAME : str := str_of "huggingface-skills".
Definition DEFAULT_MCP_URL : str := str_of "https://huggingface.co/mcp?login".

Definition lower_alnum (c : N) : bool :=
  in_range 97 122 c || in_range 48 57 c.

(** The class [[a-z0-9.-]]. *)
Definition name_inner (c : N) : bool :=
  lower_alnum c || (c =? 46)%N || (c =? 45)%N.

Definition PLUGIN_NAME_PATTERN : str :=
  str_of "^[a-z0-9](?:[a-z0-9.-]*[a-z0-9])?$".

Definition PLUGIN_NAME_RE : regex :=
  Seq Bos
    (Seq (Chr lower_alnum)
       (Seq (Opt (Seq (Star name_inner) (Chr lower_alnum))) Eos)).

(** [^---\s*\n(.*?)\n---\s*] under [re.DOTALL]. *)
Definition FRONTMATTER_RE : regex :=
  Seq Bos
    (Seq (lit (str_of "---"))
       (Seq (Star is_space)
          (Seq (Chr (N.eqb 10))
             (Seq (Group (StarLazy any_char))
                (Seq (Chr (N.eqb 10))
                   (Seq (lit (str_of "---")) (Star is_space))))))).

(** The loop of [parse_frontmatter] over the lines of the block. *)
Fixpoint frontmatter_loop (lines : list str) (data : dict str) : dict str :=
  match lines with
  | [] => data
  | line :: lines' =>
      if has_colon line then
        let '(key, value) := split_colon line in
        frontmatter_loop lines' (dict_set (strip key) (strip value) data)
      else frontmatter_loop lines' data
  end.

Definition parse_frontmatter (text : str) : dict str :=
  match re_search FRONTMATTER_RE text with
  | None => []
  | Some m => frontmatter_loop (splitlines (group1 m)) []
  end.

(** [ROOT.glob("skills/*/SKILL.md")] *)
Definition glob_skills (t : node) : list path :=
  match lookup_path t [str_of "skills"] with
  | Some (Dir es) =>
      omap (fun '(d, n) =>
              match lookup_path n [str_of "SKILL.md"] with
              | Some _ => Some [str_of "skills"; d; str_of "SKILL.md"]
              | None => None
              end)
           (map_to_list es)
  | _ => []
  end.

(** The loop of [collect_skills] over the sorted paths. *)
Fixpoint collect_loop (t : node) (paths : list path) (skills : list str)
    : result (list str) :=
  match paths with
  | [] => Ok skills
  | skill_md :: paths' =>
      text ← read_text t skill_md;
      let meta := parse_frontmatter text in
      let name := strip (default [] (dict_get (str_of "name") meta)) in
      match name with
      | [] => collect_loop t paths' skills
      | _ => collect_loop t paths' (skills ++ [name])
      end
  end.

Definition collect_skills (t : node) : result (list str) :=
  collect_loop t (sorted_paths (glob_skills t)) [].

Definition invalid_name_message (name : str) : str :=
  str_of "Invalid plugin name in .claude-plugin/plugin.json: "
  ++ str_of "'" ++ name ++ str_of "'. Must be lowercase and match "
  ++ PLUGIN_NAME_PATTERN.

Definition validate_plugin_name (name : str) : result unit :=
  match re_match PLUGIN_NAME_RE name with
  | Some _ => Ok tt
  | None => Raise (ValueError (invalid_name_message name))
  end.

Definition missing_name_message : str :=
  str_of ".claude-plugin/plugin.json must define a non-empty 'name'".

Definition no_skills_message : str :=
  str_of "No skills discovered under skills/*/SKILL.md".

Definition optional_fields : list str :=
  map str_of
    ["description"; "version"; "author"; "homepage"; "repository";
     "license"; "keywords"; "logo"]%string.

(** The [manifest] that the builder starts from. *)
Definition base_manifest (name : str) : dict json :=
  [(str_of "name", JStr name);
   (str_of "skills", JStr (str_of "skills"));
   (str_of "mcpServers", JStr (str_of ".mcp.json"))].

(** The loop that copies the optional fields. *)
Fixpoint copy_fields (keys : list str) (src manifest : dict json)
    : dict json :=
  match keys with
  | [] => manifest
  | key :: keys' =>
      match dict_get key src with
      | Some v => copy_fields keys' src (dict_set key v manifest)
      | None => copy_fields keys' src manifest
      end
  end.

(** A method of [dict] called on a parsed document. *)
Definition as_dict (v : json) : result (dict json) :=
  match v with
  | JDict d => Ok d
  | _ => Raise AttributeError
  end.

Section with_library.

(** [json.loads]: [None] when the text is not valid JSON. *)
Variable json_loads : str -> option json.

(** [json.dumps(data, indent=2, ensure_ascii=False)] *)
Variable json_dumps : json -> str.

Definition load_json (t : node) (p : path) : result json :=
  if path_exists t p then
    text ← read_text t p;
    match json_loads text with
    | Some v => Ok v
    | None => Raise JSONDecodeError
    end
  else Raise (FileNotFoundError p).

Definition build_cursor_plugin_manifest (t : node) : result (dict json) :=
  loaded ← load_json t CLAUDE_PLUGIN_MANIFEST;
  src ← as_dict loaded;
  match get (str_of "name") src with
  | JStr ((_ :: _) as name) =>
      _ ← validate_plugin_name name;
      skills ← collect_skills t;
      match skills with
      | [] => Raise (ValueError no_skills_message)
      | _ :: _ =>
          let manifest := base_manifest name in
          Ok (copy_fields optional_fields src manifest)
      end
  | _ => Raise (ValueError missing_name_message)
  end.

Definition default_mcp : str * str :=
  (DEFAULT_MCP_SERVER_NAME, DEFAULT_MCP_URL).

Definition extract_mcp_from_gemini (t : node) : result (str * str) :=
  if negb (path_exists t GEMINI_EXTENSION) then Ok default_mcp
  else
    loaded ← load_json t GEMINI_EXTENSION;
    data ← as_dict loaded;
    match get (str_of "mcpServers") data with
    | JDict (((server_name, _) :: _) as servers) =>
        match dict_get server_name servers with
        | Some (JDict server_cfg) =>
            let url :=
              py_or (get (str_of "url") server_cfg)
                (py_or (get (str_of "httpUrl") server_cfg)
                   (JStr DEFAULT_MCP_URL)) in
            match url with
            | JStr u =>
                match strip u with
                | [] => Ok (server_name, DEFAULT_MCP_URL)
                | _ :: _ => Ok (server_name, u)
                end
            | _ => Ok (server_name, DEFAULT_MCP_URL)
            end
        | _ => Ok default_mcp
        end
    | _ => Ok default_mcp
    end.

Definition mcp_document (server_name url : str) : json :=
  JDict [(str_of "mcpServers",
          JDict [(server_name, JDict [(str_of "url", JStr url)])])].

Definition build_mcp_config (t : node) : result json :=
  '(server_name, url) ← extract_mcp_from_gemini t;
  Ok (mcp_document server_name url).

Definition render_json (data : json) : str := json_dumps data ++ [10%N].

Definition write_or_check (p : path) (content : str) (check : bool)
    : M bool :=
  current ← reading (fun t =>
    if path_exists t p then Some <$> read_text t p else Ok None);
  if bool_decide (current = Some content) then mret true
  else if check then mret false
  else
    _ ← mkdir (parent p);
    _ ← write_text p content;
    mret true.

(** How a run ends: it returns, it leaves through [sys.exit], or an
    exception reaches the top. *)
Inductive outcome :=
| Returned (stdout : list str)
| Exited (code : Z) (stdout stderr : list str)
| Uncaught (e : exn).

(** What [parser.parse_args()] does with the command line: it returns
    the namespace, of which [check] is the only attribute; or it prints
    the help and leaves with status 0 (for [-h] and [--help]); or it
    prints the usage and an error message on [stderr] and leaves with
    status 2 (for a command line that it refuses). *)
Inductive parsed :=
| Namespace (check : bool)
| Help (stdout : list str)
| UsageError (stderr : list str).

(** [parser.parse_args()] for the parser that [main] builds, as a
    function of [sys.argv[1:]]. *)
Variable parse_args : list str -> parsed.

(** [main] from the builders on, with [check] the value of
    [args.check]. *)
Definition main_body (check : bool) : M outcome :=
  plugin_manifest ← reading (fun t =>
    render_json ∘ JDict <$> build_cursor_plugin_manifest t);
  mcp_config ← reading (fun t => render_json <$> build_mcp_config t);
  ok_plugin ← write_or_check CURSOR_PLUGIN_MANIFEST plugin_manifest check;
  ok_mcp ← write_or_check CURSOR_MCP_CONFIG mcp_config check;
  if check then
    let outdated : list str :=
      (if ok_plugin : bool then [] else [path_str CURSOR_PLUGIN_MANIFEST])
      ++ (if ok_mcp : bool then [] else [path_str CURSOR_MCP_CONFIG]) in
    match outdated with
    | _ :: _ =>
        mret (Exited 1 []
          ([str_of "Generated Cursor artifacts are out of date:"]
           ++ map (app (str_of "  - ")) outdated
           ++ [str_of "Run: uv run scripts/generate_cursor_plugin.py"]))
    | [] => mret (Returned [str_of "Cursor plugin artifacts are up to date."])
    end
  else
    mret (Returned
      [str_of "Wrote " ++ path_str CURSOR_PLUGIN_MANIFEST;
       str_of "Wrote " ++ path_str CURSOR_MCP_CONFIG]).

(** [main], run with the arguments [argv]. *)
Definition main (argv : list str) (w : world) : outcome * world :=
  match parse_args argv with
  | Namespace check =>
      match main_body check w with
      | (Ok o, w') => (o, w')
      | (Raise e, w') => (Uncaught e, w')
      end
  | Help stdout => (Exited 0 stdout [], w)
  | UsageError stderr => (Exited 2 [] stderr, w)
  end.

End with_library.

(** Two trees with the same inputs of the script: the metadata, the
    extension config and the skills. *)
Definition same_inputs (t t' : node) : Prop :=
  same_entry (str_of ".claude-plugin") t t'
  ∧ same_entry (str_of "skills") t t'
  ∧ same_entry (str_of "gemini-extension.json") t t'.

End Script.
Export Script.

(** ** The specification's wording, as definitions to compare with *)

Module Wording.

(** The naming rule: non-empty, first and last character lowercase
    alphanumeric, the characters between them lowercase alphanumeric,
    [.] or [-]. *)
Definition name_ok (s : str) : bool :=
  match s with
  | [] => false
  | first :: t =>
      lower_alnum first &&
      match rev t with
      | [] => true
      | last :: interior => lower_alnum last && forallb name_inner interior
      end
  end.

(** The URL rule: [url] if it is a non-empty string, else [httpUrl] if it
    is a non-empty string, else the default. *)
Definition claimed_url (server_cfg : dict json) : str :=
  match dict_get (str_of "url") server_cfg with
  | Some (JStr ((_ :: _) as u)) => u
  | _ =>
      match dict_get (str_of "httpUrl") server_cfg with
      | Some (JStr ((_ :: _) as h)) => h
      | _ => DEFAULT_MCP_URL
      end
  end.

(** A string with a character that is not white space. *)
Definition nonblank (v : json) (u : str) : Prop :=
  v = JStr u ∧ strip u ≠ [].

(** The fallback document, written out. *)
Definition default_document : json :=
  JDict [(str_of "mcpServers",
          JDict [(str_of "huggingface-skills",
                  JDict [(str_of "url",
                          JStr (str_of "https://huggingface.co/mcp?login"))])])].

(** The key and value that a header line declares, if it holds a colon. *)
Definition binding (line : str) : option (str * str) :=
  if has_colon line then
    Some (strip (split_colon line).1, strip (split_colon line).2)
  else None.

(** The value of the last line that declares [key]. *)
Definition last_binding (key : str) (lines : list str) : option str :=
  snd <$> last (filter (fun kv => kv.1 = key) (omap binding lines)).

(** A descriptor whose header declares no name, or a blank one. *)
Definition unnamed (text : str) : Prop :=
  strip (default [] (dict_get (str_of "name") (parse_frontmatter text))) = [].

(** The keys that every manifest holds, in the order of the source. *)
Definition fixed_fields : list str :=
  [str_of "name"; str_of "skills"; str_of "mcpServers"].

(** The name that the descriptor at [p] declares, if it is a file whose
    header declares one that is not blank. *)
Definition declared_name (t : node) (p : path) : option str :=
  match read_text t p with
  | Ok text =>
      match strip (default [] (dict_get (str_of "name")
                                 (parse_frontmatter text))) with
      | [] => None
      | name => Some name
      end
  | Raise _ => None
  end.

(** What check mode prints when nothing is out of date. *)
Definition up_to_date_lines : list str :=
  [str_of "Cursor plugin artifacts are up to date."].

(** What check mode prints for the outdated paths. *)
Definition drift_lines (outdated : list str) : list str :=
  [str_of "Generated Cursor artifacts are out of date:"]
  ++ map (app (str_of "  - ")) outdated
  ++ [str_of "Run: uv run scripts/generate_cursor_plugin.py"].

(** The path is an outdated output: it does not hold the content. *)
Definition outdated_path (t : node) (p : path) (content : str) : list str :=
  match lookup_path t p with
  | Some (File text) => if bool_decide (text = content) then [] else [path_str p]
  | _ => [path_str p]
  end.

End Wording.
Export Wording.

(** ** Sample inputs, to run the model on *)

Module Samples.

(** A text written with ['] for the double quote. *)
Definition dq (s : string) : str :=
  map (fun c => if (c =? 39)%N then 34%N else c) (str_of s).

Definition lines_text (lines : list string) : str :=
  concat (map (fun l => str_of l ++ [10%N]) lines).

Definition manifest_text : str :=
  dq "{'name': 'demo-plugin', 'version': '1.0.0', 'license': null}".
Definition manifest_doc : json :=
  JDict [(str_of "name", JStr (str_of "demo-plugin"));
         (str_of "version", JStr (str_of "1.0.0"));
         (str_of "license", JNull)].

(** The name ends with a line feed, written [\n] in the JSON text. *)
Definition newline_name_text : str := dq "{'name': 'a\n'}".
Definition newline_name_doc : json :=
  JDict [(str_of "name", JStr (str_of "a" ++ [10%N]))].

Definition gemini_text : str :=
  dq "{'mcpServers': {'hf': {'httpUrl': 'https://example.org/mcp'}}}".
Definition gemini_cfg : dict json :=
  [(str_of "httpUrl", JStr (str_of "https://example.org/mcp"))].
Definition gemini_doc : json :=
  JDict [(str_of "mcpServers", JDict [(str_of "hf", JDict gemini_cfg)])].

Definition number_url_text : str :=
  dq "{'mcpServers': {'hf': {'url': 1, 'httpUrl': 'http://x'}}}".
Definition number_url_cfg : dict json :=
  [(str_of "url", JInt 1); (str_of "httpUrl", JStr (str_of "http://x"))].
Definition number_url_doc : json :=
  JDict [(str_of "mcpServers", JDict [(str_of "hf", JDict number_url_cfg)])].

Definition both_urls_text : str :=
  dq "{'mcpServers': {'hf': {'url': 'http://u', 'httpUrl': 'http://h'}}}".
Definition both_urls_doc : json :=
  JDict [(str_of "mcpServers",
          JDict [(str_of "hf",
                  JDict [(str_of "url", JStr (str_of "http://u"));
                         (str_of "httpUrl", JStr (str_of "http://h"))])])].

Definition no_servers_text : str := dq "{'mcpServers': {}}".
Definition no_servers_doc : json := JDict [(str_of "mcpServers", JDict [])].

Definition string_server_text : str := dq "{'mcpServers': {'hf': 'http://x'}}".
Definition string_server_doc : json :=
  JDict [(str_of "mcpServers",
          JDict [(str_of "hf", JStr (str_of "http://x"))])].


Definition sample_documents : list (str * json) :=
  [(manifest_text, manifest_doc);
   (newline_name_text, newline_name_doc);
   (gemini_text, gemini_doc);
   (number_url_text, number_url_doc);
   (both_urls_text, both_urls_doc);
   (no_servers_text, no_servers_doc);
   (string_server_text, string_server_doc)].

(** [json.loads] on the sample documents; no other text is decoded. *)
Definition sample_loads (text : str) : option json :=
  dict_get text sample_documents.

(** A rendering to run the model with: one item per line, nothing
    escaped; numbers do not occur in the documents it is used on. *)
Fixpoint sample_dumps (v : json) : str :=
  match v with
  | JNull => str_of "null"
  | JBool b => if b then str_of "true" else str_of "false"
  | JInt _ | JFloat _ => str_of "0"
  | JStr s => [34%N] ++ s ++ [34%N]
  | JList l =>
      str_of "[" ++ concat (map (fun x => sample_dumps x ++ [10%N]) l)
      ++ str_of "]"
  | JDict d =>
      str_of "{"
      ++ concat (map (fun kv => [34%N] ++ kv.1 ++ [34%N] ++ str_of ": "
                                ++ sample_dumps kv.2 ++ [10%N]) d)
      ++ str_of "}"
  end.

(** A header block that declares [name] twice. *)
Definition skill_text : str :=
  lines_text ["---"; "name: draft"; "description: a skill";
              "no colon here"; "name : alpha "; "---"; "Body."]%string.

(** The same, with no [name]. *)
Definition unnamed_skill_text : str :=
  lines_text ["---"; "description: a skill"; "---"]%string.

Definition file_entry (name : str) (text : option str) : gmap str node :=
  match text with
  | Some s => {[ name := File s ]}
  | None => ∅
  end.

(** A tree with the given metadata, extension config and descriptors. *)
Definition sample_tree (manifest gemini : option str)
    (skills : list (str * str)) : node :=
  Dir (<[str_of ".claude-plugin" :=
           Dir (file_entry (str_of "plugin.json") manifest)]>
       (<[str_of "skills" :=
            Dir (list_to_map
                   (map (fun '(d, s) =>
                           (d, Dir {[ str_of "SKILL.md" := File s ]}))
                        skills))]>
        (file_entry (str_of "gemini-extension.json") gemini))).

Definition sample_skills : list (str * str) :=
  [(str_of "beta", unnamed_skill_text); (str_of "alpha", skill_text)].

Definition start (t : node) : world := World t [].

(** Metadata, an extension config and two descriptors, one of them
    without a name. *)
Definition sample_root : node :=
  sample_tree (Some manifest_text) (Some gemini_text) sample_skills.

(** The manifest of [sample_root]. *)
Definition sample_manifest : dict json :=
  [(str_of "name", JStr (str_of "demo-plugin"));
   (str_of "skills", JStr (str_of "skills"));
   (str_of "mcpServers", JStr (str_of ".mcp.json"));
   (str_of "version", JStr (str_of "1.0.0"));
   (str_of "license", JNull)].

Definition wrote_lines : list str :=
  [str_of "Wrote .cursor-plugin/plugin.json"; str_of "Wrote .mcp.json"].

(** The command lines: no argument, [--check], [--help], and one that
    the parser refuses. *)
Definition write_argv : list str := [].
Definition check_argv : list str := [str_of "--check"].
Definition help_argv : list str := [str_of "--help"].
Definition bad_argv : list str := [str_of "--fix"].

Definition help_lines : list str :=
  [str_of "usage: generate_cursor_plugin.py [-h] [--check]"].
Definition usage_lines : list str :=
  [str_of "usage: generate_cursor_plugin.py [-h] [--check]";
   str_of "generate_cursor_plugin.py: error: unrecognized arguments: --fix"].

(** [parse_args] on these command lines; no other is used. *)
Definition sample_parse_args (argv : list str) : parsed :=
  if bool_decide (argv = write_argv) then Namespace false
  else if bool_decide (argv = check_argv) then Namespace true
  else if bool_decide (argv = help_argv) then Help help_lines
  else UsageError usage_lines.

(** The world after a write-mode run on [sample_root]. *)
Definition after_first_run : world :=
  (main sample_loads sample_dumps sample_parse_args write_argv
     (start sample_root)).2.

(** Trees without metadata, without skills, with a broken config. *)
Definition no_metadata_root : node := sample_tree None None [].
Definition newline_name_root : node :=
  sample_tree (Some newline_name_text) None sample_skills.
Definition number_url_root : node :=
  sample_tree None (Some number_url_text) [].

(** More documents: metadata without a name, with a name in upper case,
    and a document that is a list. *)
Definition nameless_text : str := dq "{'version': '1.0.0'}".
Definition nameless_doc : json :=
  JDict [(str_of "version", JStr (str_of "1.0.0"))].
Definition upper_name_text : str := dq "{'name': 'My_Plugin'}".
Definition upper_name_doc : json :=
  JDict [(str_of "name", JStr (str_of "My_Plugin"))].
Definition list_text : str := str_of "[]".

Definition more_documents : list (str * json) :=
  sample_documents
  ++ [(nameless_text, nameless_doc);
      (upper_name_text, upper_name_doc);
      (list_text, JList [])].

(** [json.loads] on the sample documents and these. *)
Definition more_loads (text : str) : option json :=
  dict_get text more_documents.

(** The tree with one more entry below [ROOT]. *)
Definition with_entry (k : str) (n : node) (t : node) : node :=
  match t with
  | Dir es => Dir (<[k := n]> es)
  | File _ | Binary => t
  end.

(** [sample_root] with a directory where the MCP config goes, and with a
    file where the plugin directory goes. *)
Definition mcp_dir_root : node :=
  with_entry (str_of ".mcp.json") (Dir ∅) sample_root.

(** Metadata and one skill directory, in which [SKILL.md] is the given
    node. *)
Definition descriptor_root (descriptor : node) : node :=
  with_entry (str_of "skills")
    (Dir {[ str_of "beta" := Dir {[ str_of "SKILL.md" := descriptor ]} ]})
    (sample_tree (Some manifest_text) None []).

(** Metadata of which the description is a lone surrogate, written
    [\ud800] in the JSON text. *)
Definition surrogate_text : str :=
  dq "{'name': 'a', 'description': '\ud800'}".
Definition surrogate_doc : json :=
  JDict [(str_of "name", JStr (str_of "a"));
         (str_of "description", JStr [55296%N])].
Definition surrogate_manifest : dict json :=
  [(str_of "name", JStr (str_of "a"));
   (str_of "skills", JStr (str_of "skills"));
   (str_of "mcpServers", JStr (str_of ".mcp.json"));
   (str_of "description", JStr [55296%N])].

(** [json.loads] on all these documents. *)
Definition all_loads (text : str) : option json :=
  dict_get text (more_documents ++ [(surrogate_text, surrogate_doc)]).

Definition surrogate_root : node :=
  sample_tree (Some surrogate_text) None sample_skills.

(** The same, with a directory where the MCP config goes. *)
Definition surrogate_dir_root : node :=
  with_entry (str_of ".mcp.json") (Dir ∅) surrogate_root.

(** The MCP document of [sample_root]. *)
Definition sample_mcp : json :=
  JDict [(str_of "mcpServers",
          JDict [(str_of "hf",
                  JDict [(str_of "url",
                          JStr (str_of "https://example.org/mcp"))])])].

End Samples.
Export Samples.

(** * Properties *)

(** ** Dictionaries *)

Lemma str_eqb_eq (a b : str) : str_eqb a b = true ↔ a = b.
Proof. unfold str_eqb. apply bool_decide_eq_true. Qed.

Lemma str_eqb_refl (a : str) : str_eqb a a = true.
Proof. by apply str_eqb_eq. Qed.

Lemma str_eqb_ne (a b : str) : a ≠ b → str_eqb a b = false.
Proof. intros H. unfold str_eqb. by apply bool_decide_eq_false. Qed.

Ltac case_str :=
  match goal with
  | |- context [str_eqb ?a ?b] =>
      let E := fresh "E" in
      destruct (decide (a = b)) as [E|E];
      [ rewrite (proj2 (str_eqb_eq a b) E) | rewrite (str_eqb_ne a b E) ]
  end.

Lemma dict_get_set_eq {V} (k : str) (v : V) (d : dict V) :
  dict_get k (dict_set k v d) = Some v.
Proof.
  induction d as [|[k' v'] d IH]; simpl.
  - by rewrite str_eqb_refl.
  - case_str; simpl.
    + by rewrite str_eqb_refl.
    + by rewrite str_eqb_ne.
Qed.

Lemma dict_get_set_ne {V} (k k' : str) (v : V) (d : dict V) :
  k ≠ k' → dict_get k (dict_set k' v d) = dict_get k d.
Proof.
  intros Hne. induction d as [|[k0 v0] d IH]; simpl.
  - by rewrite str_eqb_ne.
  - destruct (decide (k' = k0)) as [->|E].
    + rewrite str_eqb_refl. simpl. by rewrite !str_eqb_ne.
    + rewrite (str_eqb_ne k' k0 E). simpl. by rewrite IH.
Qed.

(** ** The header block *)

Lemma split_colon_first (line : str) :
  has_colon line = true →
  line = (split_colon line).1 ++ colon :: (split_colon line).2
  ∧ colon ∉ (split_colon line).1.
Proof.
  unfold has_colon. induction line as [|c t IH]; [done|].
  cbn [existsb split_colon]. rewrite (N.eqb_sym colon c).
  destruct (N.eqb_spec c colon) as [->|Hc].
  - intros _. split; [done|]. apply not_elem_of_nil.
  - cbn [orb]. intros Ht. destruct (IH Ht) as [Heq Hnot].
    destruct (split_colon t) as [k v]; simpl in *. split.
    + by rewrite <- Heq.
    + rewrite elem_of_cons. intros [E|E]; [by apply Hc|done].
Qed.

Lemma last_binding_cons (key line : str) (lines : list str) :
  last_binding key (line :: lines) =
  match last_binding key lines with
  | Some v => Some v
  | None =>
      match binding line with
      | Some (k, v) => if decide (k = key) then Some v else None
      | None => None
      end
  end.
Proof.
  unfold last_binding.
  change (omap binding (line :: lines)) with
    (match binding line with
     | Some kv => kv :: omap binding lines
     | None => omap binding lines
     end).
  destruct (binding line) as [[k v]|]; [|by destruct (last _)].
  rewrite filter_cons. simpl. destruct (decide (k = key)) as [E|E].
  - rewrite last_cons. by destruct (last _).
  - by destruct (last _).
Qed.

Lemma frontmatter_loop_get (lines : list str) (data : dict str) (key : str) :
  dict_get key (frontmatter_loop lines data) =
  match last_binding key lines with
  | Some v => Some v
  | None => dict_get key data
  end.
Proof.
  revert data. induction lines as [|line lines IH]; intros data; [done|].
  rewrite last_binding_cons. simpl. unfold binding.
  destruct (has_colon line).
  - destruct (split_colon line) as [k v]. rewrite IH. simpl.
    destruct (last_binding key lines); [done|].
    destruct (decide (strip k = key)) as [<-|E].
    + apply dict_get_set_eq.
    + by apply dict_get_set_ne.
  - rewrite IH. by destruct (last_binding key lines).
Qed.

(** C9. When the header block declares a key on several lines (two
    [name:] lines, say), the parsed mapping holds the value of the last
    of them. A line is split on its first colon, key and value are
    trimmed of white space, and a line without a colon is ignored. *)
Theorem parse_frontmatter_last_line_wins (text : str) (m : mstate) :
  re_search FRONTMATTER_RE text = Some m →
  let lines := splitlines (group1 m) in
  (∀ key, dict_get key (parse_frontmatter text) = last_binding key lines)
  ∧ (∀ line, line ∈ lines → has_colon line = false → binding line = None)
  ∧ (∀ line, line ∈ lines → has_colon line = true →
       ∃ k v, line = k ++ [colon] ++ v ∧ (colon ∉ k)
              ∧ binding line = Some (strip k, strip v)).
Proof.
  intros Hm lines. unfold parse_frontmatter. rewrite Hm. fold lines.
  split; [|split].
  - intros key. rewrite frontmatter_loop_get. by destruct (last_binding _ _).
  - intros line _ Hc. unfold binding. by rewrite Hc.
  - intros line _ Hc. destruct (split_colon_first line Hc) as [Heq Hnot].
    exists (split_colon line).1, (split_colon line).2.
    unfold binding. by rewrite Hc.
Qed.

(** ** The manifest builder *)

Lemma copy_fields_other (keys : list str) (src m : dict json) (k : str) :
  k ∉ keys → dict_get k (copy_fields keys src m) = dict_get k m.
Proof.
  revert m. induction keys as [|key keys IH]; intros m Hk; [done|].
  apply not_elem_of_cons in Hk as [Hne Hk]. simpl.
  destruct (dict_get key src) as [v|]; rewrite IH by done; [|done].
  by apply dict_get_set_ne.
Qed.

Lemma copy_fields_listed (keys : list str) (src m : dict json) (k : str) :
  k ∈ keys →
  dict_get k (copy_fields keys src m) =
  match dict_get k src with
  | Some v => Some v
  | None => dict_get k m
  end.
Proof.
  revert m. induction keys as [|key keys IH]; intros m Hk.
  { by apply elem_of_nil in Hk. }
  simpl. destruct (decide (k ∈ keys)) as [Hin|Hout].
  - destruct (dict_get key src) as [v|] eqn:Hv; rewrite IH by done; [|done].
    destruct (dict_get k src) as [v'|] eqn:Hv'; [done|].
    apply dict_get_set_ne. intros ->. congruence.
  - apply elem_of_cons in Hk as [->|Hk]; [|done].
    destruct (dict_get key src) as [v|] eqn:Hv;
      rewrite copy_fields_other by done; [|done].
    apply dict_get_set_eq.
Qed.

Lemma base_manifest_optional (name key : str) :
  key ∈ optional_fields → dict_get key (base_manifest name) = None.
Proof.
  unfold optional_fields. cbn [map]. rewrite !elem_of_cons, elem_of_nil.
  intros H. repeat (destruct H as [->|H]; [by vm_compute|]). done.
Qed.

Lemma validate_plugin_name_nonempty (name : str) :
  validate_plugin_name name = Ok tt → name ≠ [].
Proof. by intros H ->. Qed.

Section manifest.

Variable json_loads : str -> option json.

Local Abbreviation load_json := (load_json json_loads).
Local Abbreviation build_cursor_plugin_manifest :=
  (build_cursor_plugin_manifest json_loads).

(** What a successful build went through. *)
Lemma build_cursor_plugin_manifest_ok (t : node) (m : dict json) :
  build_cursor_plugin_manifest t = Ok m →
  ∃ src name,
    load_json t CLAUDE_PLUGIN_MANIFEST = Ok (JDict src)
    ∧ get (str_of "name") src = JStr name
    ∧ validate_plugin_name name = Ok tt
    ∧ (∃ skill skills, collect_skills t = Ok (skill :: skills))
    ∧ m = copy_fields optional_fields src (base_manifest name).
Proof.
  unfold Script.build_cursor_plugin_manifest.
  destruct (load_json t CLAUDE_PLUGIN_MANIFEST) as [loaded|e]; [|done].
  destruct loaded as [| | | | |l|src]; try done. cbn [mbind result_bind as_dict].
  destruct (get (str_of "name") src) as [| | | |name| |] eqn:Hname; try done.
  destruct name as [|c name]; [done|].
  destruct (validate_plugin_name (c :: name)) as [[]|e] eqn:Hv; [|done].
  cbn [mbind result_bind].
  destruct (collect_skills t) as [[|skill skills]|e] eqn:Hs; try done.
  cbn [mbind result_bind]. intros [= <-].
  exists src, (c :: name). eauto 10.
Qed.

(** The converse: these steps make the build succeed. *)
Lemma build_cursor_plugin_manifest_intro (t : node) (src : dict json)
    (name skill : str) (skills : list str) :
  load_json t CLAUDE_PLUGIN_MANIFEST = Ok (JDict src) →
  get (str_of "name") src = JStr name →
  validate_plugin_name name = Ok tt →
  collect_skills t = Ok (skill :: skills) →
  build_cursor_plugin_manifest t =
  Ok (copy_fields optional_fields src (base_manifest name)).
Proof.
  intros Hl Hn Hv Hs. unfold Script.build_cursor_plugin_manifest.
  rewrite Hl. cbn [mbind result_bind as_dict]. rewrite Hn.
  destruct name as [|c name]; [done|].
  rewrite Hv. cbn [mbind result_bind]. by rewrite Hs.
Qed.

(** C8. Each of the optional fields (description, version, author,
    homepage, repository, license, keywords, logo) that the metadata
    holds is in the manifest with the same value, and one that the
    metadata does not hold is not a key of the manifest. *)
Theorem optional_fields_copied (t : node) (src m : dict json) (key : str) :
  load_json t CLAUDE_PLUGIN_MANIFEST = Ok (JDict src) →
  build_cursor_plugin_manifest t = Ok m →
  key ∈ optional_fields →
  dict_get key m = dict_get key src
  ∧ dict_in key m = dict_in key src.
Proof.
  intros Hl Hb Hk.
  destruct (build_cursor_plugin_manifest_ok t m Hb)
    as (src' & name & Hl' & _ & _ & _ & ->).
  rewrite Hl in Hl'. injection Hl' as <-.
  assert (H : dict_get key (copy_fields optional_fields src (base_manifest name))
              = dict_get key src).
  { rewrite copy_fields_listed by done.
    rewrite base_manifest_optional by done. by destruct (dict_get key src). }
  split; [done|]. unfold dict_in. by rewrite H.
Qed.

End manifest.

(** ** The MCP config builder *)

Lemma nonblank_truthy (v : json) (s : str) : nonblank v s → truthy v = true.
Proof. intros [-> Hs]. by destruct s. Qed.

Lemma strip_default_url : strip DEFAULT_MCP_URL = DEFAULT_MCP_URL.
Proof. by vm_compute. Qed.

Lemma default_document_eq :
  mcp_document DEFAULT_MCP_SERVER_NAME DEFAULT_MCP_URL = default_document.
Proof. reflexivity. Qed.

Section mcp.

Variable json_loads : str -> option json.

Local Abbreviation load_json := (load_json json_loads).
Local Abbreviation extract_mcp_from_gemini :=
  (extract_mcp_from_gemini json_loads).
Local Abbreviation build_mcp_config := (build_mcp_config json_loads).

Lemma load_json_exists (t : node) (p : path) (v : json) :
  load_json t p = Ok v → path_exists t p = true.
Proof. unfold Script.load_json. by destruct (path_exists t p). Qed.


(** The extraction, once the extension config is loaded as a mapping. *)
Lemma extract_mcp_loaded (t : node) (data : dict json) :
  load_json t GEMINI_EXTENSION = Ok (JDict data) →
  extract_mcp_from_gemini t =
  match get (str_of "mcpServers") data with
  | JDict ((server_name, JDict server_cfg) :: _) =>
      match py_or (get (str_of "url") server_cfg)
              (py_or (get (str_of "httpUrl") server_cfg)
                 (JStr DEFAULT_MCP_URL)) with
      | JStr u =>
          match strip u with
          | [] => Ok (server_name, DEFAULT_MCP_URL)
          | _ :: _ => Ok (server_name, u)
          end
      | _ => Ok (server_name, DEFAULT_MCP_URL)
      end
  | _ => Ok default_mcp
  end.
Proof.
  intros Hl. unfold Script.extract_mcp_from_gemini.
  rewrite (load_json_exists _ _ _ Hl), Hl. cbn [negb mbind result_bind as_dict].
  destruct (get (str_of "mcpServers") data) as [| | | | | |servers]; try done.
  destruct servers as [|[server_name value] servers]; [done|].
  cbn [dict_get]. rewrite str_eqb_refl. by destruct value.
Qed.

(** C3. With no extension config file, with one whose mapping has no
    non-empty [mcpServers] mapping, and with one whose first server entry
    is not a mapping, the MCP document is the default one: the default
    server name with the default URL. *)
Theorem mcp_fallback (t : node) :
  (path_exists t GEMINI_EXTENSION = false →
   build_mcp_config t = Ok default_document)
  ∧ (∀ data,
       load_json t GEMINI_EXTENSION = Ok (JDict data) →
       (∀ entry servers,
          get (str_of "mcpServers") data ≠ JDict (entry :: servers)) →
       build_mcp_config t = Ok default_document)
  ∧ (∀ data server_name value servers,
       load_json t GEMINI_EXTENSION = Ok (JDict data) →
       get (str_of "mcpServers") data
         = JDict ((server_name, value) :: servers) →
       (∀ server_cfg, value ≠ JDict server_cfg) →
       build_mcp_config t = Ok default_document).
Proof.
  unfold Script.build_mcp_config. split; [|split].
  - intros He. unfold Script.extract_mcp_from_gemini. by rewrite He.
  - intros data Hl Hno. rewrite (extract_mcp_loaded _ _ Hl).
    destruct (get (str_of "mcpServers") data) as [| | | | | |servers]; try done.
    destruct servers as [|entry servers]; [done|]. by destruct (Hno entry servers).
  - intros data server_name value servers Hl Hs Hv.
    rewrite (extract_mcp_loaded _ _ Hl), Hs.
    destruct value as [| | | | | |cfg]; try done. by destruct (Hv cfg).
Qed.

(** C1, as the code has it. For an extension config whose first server
    entry is a mapping, the server name is the first key and the URL is:
    the [url] value when it is a string with a character that is not
    white space; the [httpUrl] value when [url] is missing or falsy and
    [httpUrl] is such a string; the default URL in every other case, so
    also when [url] is truthy without being such a string, whatever
    [httpUrl] holds. *)
Theorem url_resolution (t : node) (data : dict json) (server_name : str)
    (server_cfg : dict json) (servers : dict json) :
  load_json t GEMINI_EXTENSION = Ok (JDict data) →
  get (str_of "mcpServers") data
    = JDict ((server_name, JDict server_cfg) :: servers) →
  ∃ url,
    extract_mcp_from_gemini t = Ok (server_name, url)
    ∧ let u := get (str_of "url") server_cfg in
      let h := get (str_of "httpUrl") server_cfg in
      (∀ s, nonblank u s → url = s)
      ∧ (∀ s, truthy u = false → nonblank h s → url = s)
      ∧ (truthy u = true → (∀ s, ¬ nonblank u s) → url = DEFAULT_MCP_URL)
      ∧ (truthy u = false → (∀ s, ¬ nonblank h s) → url = DEFAULT_MCP_URL).
Proof.
  intros Hl Hs. rewrite (extract_mcp_loaded _ _ Hl), Hs.
  set (u := get (str_of "url") server_cfg).
  set (h := get (str_of "httpUrl") server_cfg).
  assert (Hcase : ∀ v, truthy v = true →
    ∃ url,
      match v with
      | JStr s =>
          match strip s with
          | [] => Ok (server_name, DEFAULT_MCP_URL)
          | _ :: _ => Ok (server_name, s)
          end
      | _ => Ok (server_name, DEFAULT_MCP_URL)
      end = Ok (server_name, url)
      ∧ (∀ s, nonblank v s → url = s)
      ∧ ((∀ s, ¬ nonblank v s) → url = DEFAULT_MCP_URL)).
  { intros v _.
    destruct v as [| | | |s| |];
      try (exists DEFAULT_MCP_URL; split; [done|];
           split; [by intros s [? _]|done]).
    destruct (strip s) as [|c s'] eqn:Hstrip.
    - exists DEFAULT_MCP_URL. split; [done|].
      split; [|done]. intros s0 [[= <-] Hne]. by rewrite Hstrip in Hne.
    - exists s. split; [done|]. split; [by intros s0 [[= <-] _]|].
      intros Hno. destruct (Hno s). split; [done|]. by rewrite Hstrip. }
  unfold py_or. destruct (truthy u) eqn:Hu.
  - destruct (Hcase u Hu) as (url & Hurl & Hyes & Hno).
    exists url. split; [done|]. repeat split; try done.
  - assert (Hnou : ∀ s, ¬ nonblank u s).
    { intros s Hn. apply nonblank_truthy in Hn. congruence. }
    destruct (truthy h) eqn:Hh.
    + destruct (Hcase h Hh) as (url & Hurl & Hyes & Hno).
      exists url. split; [done|]. repeat split; try done.
      * intros s Hn. by destruct (Hnou s).
      * intros s _. apply Hyes.
    + exists DEFAULT_MCP_URL. rewrite strip_default_url.
      split; [done|]. repeat split; try done.
      * intros s Hn. by destruct (Hnou s).
      * intros s _ Hn. apply nonblank_truthy in Hn. congruence.
Qed.


End mcp.

(** ** The directory tree *)

Lemma same_entry_lookup (k : str) (t t' : node) (p : path) :
  same_entry k t t' → lookup_path t (k :: p) = lookup_path t' (k :: p).
Proof.
  unfold same_entry. simpl.
  destruct t as [| |es], t' as [| |es']; try done;
    try (by destruct (es' !! k)); try (by destruct (es !! k)).
  destruct (es !! k), (es' !! k); congruence.
Qed.

Lemma same_entry_trans (k : str) (t1 t2 t3 : node) :
  same_entry k t1 t2 → same_entry k t2 t3 → same_entry k t1 t3.
Proof. unfold same_entry. congruence. Qed.

Lemma same_entry_exists (k : str) (t t' : node) (p : path) :
  same_entry k t t' → path_exists t (k :: p) = path_exists t' (k :: p).
Proof.
  intros H. unfold path_exists. by rewrite (same_entry_lookup k t t' p H).
Qed.

Lemma same_entry_read_text (k : str) (t t' : node) (p : path) :
  same_entry k t t' → path_exists t (k :: p) = true →
  read_text t (k :: p) = read_text t' (k :: p).
Proof.
  intros H. unfold path_exists, read_text.
  rewrite <- (same_entry_lookup k t t' p H).
  by destruct (lookup_path t (k :: p)).
Qed.

Lemma mkdir_below_frame (full : path) (n n' : node) (c k : str) (p : path) :
  mkdir_below full n (c :: p) = Ok n' → k ≠ c → same_entry k n n'.
Proof.
  intros H Hk. destruct n as [| |es]; [done|done|]. simpl in H.
  destruct (mkdir_below full (default (Dir ∅) (es !! c)) p) as [child|e];
    [|done].
  injection H as <-. unfold same_entry. simpl. by rewrite lookup_insert_ne.
Qed.

Lemma write_below_frame (full : path) (content : str) (n n' : node)
    (c k : str) (p : path) :
  write_below full content n (c :: p) = Ok n' → k ≠ c → same_entry k n n'.
Proof.
  intros H Hk. destruct n as [| |es]; [by destruct p|by destruct p|].
  unfold same_entry. simpl in *. destruct p as [|c' p].
  - destruct (es !! c) as [[| |?]|]; try done;
      injection H as <-; simpl; by rewrite lookup_insert_ne.
  - destruct (es !! c) as [child|]; [|done].
    destruct (write_below full content child (c' :: p)) as [child'|e]; [|done].
    injection H as <-. simpl. by rewrite lookup_insert_ne.
Qed.

Lemma write_below_lookup (full : path) (content : str) (n n' : node)
    (p : path) :
  write_below full content n p = Ok n' →
  lookup_path n' p = Some (File content).
Proof.
  revert n n'. induction p as [|c p IH]; intros n n' H.
  { by destruct n. }
  destruct n as [| |es]; [by destruct p|by destruct p|]. simpl in H.
  destruct p as [|c' p].
  - destruct (es !! c) as [[| |?]|]; try done;
      injection H as <-; simpl; by rewrite lookup_insert_eq.
  - destruct (es !! c) as [child|]; [|done].
    destruct (write_below full content child (c' :: p)) as [child'|e] eqn:Hw;
      [|done].
    injection H as <-. cbn [lookup_path]. rewrite lookup_insert_eq.
    by apply (IH child child').
Qed.

Lemma mkdir_parent_frame (t t' : node) (c k : str) (p : path) :
  mkdir_parents t (parent (c :: p)) = Ok t' → k ≠ c → same_entry k t t'.
Proof.
  unfold mkdir_parents, parent. destruct p as [|c' p].
  - simpl. destruct t; [done|done|]. by intros [= <-] _.
  - change (removelast (c :: c' :: p)) with (c :: removelast (c' :: p)).
    apply mkdir_below_frame.
Qed.

(** ** The order of the discovered paths *)

Lemma str_leb_total (a b : str) : str_leb a b = true ∨ str_leb b a = true.
Proof.
  revert b. induction a as [|x a IH]; intros [|y b]; simpl; eauto.
  destruct (N.ltb_spec x y), (N.ltb_spec y x); eauto.
Qed.

Lemma path_leb_total (p q : path) : path_leb p q = true ∨ path_leb q p = true.
Proof.
  revert q. induction p as [|a p IH]; intros [|b q]; simpl; eauto.
  destruct (decide (a = b)) as [->|Hne].
  - rewrite str_eqb_refl. apply IH.
  - rewrite !str_eqb_ne by done. apply str_leb_total.
Qed.

(** [sorted_paths] gives the paths it is given, in order. *)
Lemma sorted_paths_sorted (ps : list path) :
  Sorted (fun p q => Is_true (path_leb p q)) (sorted_paths ps)
  ∧ sorted_paths ps ≡ₚ ps.
Proof.
  split; [|apply merge_sort_Permutation].
  apply Sorted_merge_sort. intros p q.
  destruct (path_leb_total p q) as [H|H]; rewrite H; [by left|by right].
Qed.

Tactic Notation "unfold_M" :=
  cbv beta iota delta [mbind M_bind mret M_ret reading].
Tactic Notation "unfold_M" "in" hyp(H) :=
  cbv beta iota delta [mbind M_bind mret M_ret reading] in H.

(** ** What the builders read *)

Lemma glob_skills_form (t : node) (p : path) :
  p ∈ glob_skills t → ∃ d, p = [str_of "skills"; d; str_of "SKILL.md"].
Proof.
  unfold glob_skills.
  destruct (lookup_path t [str_of "skills"]) as [[| |es]|];
    try (by intros H; apply elem_of_nil in H).
  rewrite list_elem_of_omap. intros ([d n] & _ & H).
  destruct (lookup_path n [str_of "SKILL.md"]); [|done].
  injection H as <-. by exists d.
Qed.

Lemma glob_skills_spec (t : node) (p : path) :
  p ∈ glob_skills t ↔
  ∃ d, p = [str_of "skills"; d; str_of "SKILL.md"]
       ∧ path_exists t p = true.
Proof.
  unfold glob_skills, path_exists. split.
  - intros H. destruct (glob_skills_form t p H) as [d ->]. exists d.
    split; [done|]. unfold glob_skills in H. cbn [lookup_path] in *.
    destruct t as [| |root]; try (by apply elem_of_nil in H).
    destruct (root !! str_of "skills") as [[| |es]|];
      try (by apply elem_of_nil in H).
    apply list_elem_of_omap in H as ([d' n] & Hin & H).
    apply elem_of_map_to_list in Hin.
    destruct n as [| |sub]; cbn [lookup_path] in H; [done|done|].
    destruct (sub !! str_of "SKILL.md") eqn:Hs; [|done].
    injection H as ->. by rewrite Hin, Hs.
  - intros (d & -> & H). cbn [lookup_path] in *.
    destruct t as [| |root]; [done|done|].
    destruct (root !! str_of "skills") as [[| |es]|]; try done.
    destruct (es !! d) as [n|] eqn:Hd; [|done].
    apply list_elem_of_omap. exists (d, n). split.
    + by apply elem_of_map_to_list.
    + destruct n as [| |sub]; [done|done|]. cbn [lookup_path].
      by destruct (sub !! str_of "SKILL.md").
Qed.

Lemma sorted_paths_elem (ps : list path) (p : path) :
  p ∈ sorted_paths ps ↔ p ∈ ps.
Proof. unfold sorted_paths. by rewrite merge_sort_Permutation. Qed.

Lemma collect_loop_agree (t t' : node) (paths : list path)
    (skills : list str) :
  (∀ p, p ∈ paths → read_text t p = read_text t' p) →
  collect_loop t paths skills = collect_loop t' paths skills.
Proof.
  revert skills. induction paths as [|p paths IH]; intros skills H; [done|].
  simpl. rewrite <- (H p) by apply list_elem_of_here.
  destruct (read_text t p) as [text|e]; [|done]. simpl.
  assert (H' : ∀ q, q ∈ paths → read_text t q = read_text t' q).
  { intros q Hq. apply H. by apply list_elem_of_further. }
  destruct (strip _); by apply IH.
Qed.

Lemma collect_skills_agree (t t' : node) :
  same_entry (str_of "skills") t t' → collect_skills t = collect_skills t'.
Proof.
  intros H. unfold collect_skills.
  assert (Hg : glob_skills t = glob_skills t').
  { unfold glob_skills. by rewrite H. }
  rewrite <- Hg. apply collect_loop_agree. intros p Hp.
  apply sorted_paths_elem, glob_skills_spec in Hp as (d & -> & He).
  by apply same_entry_read_text.
Qed.

Lemma collect_loop_none (t : node) (paths : list path) (skills : list str) :
  collect_loop t paths skills = Ok [] ↔
  skills = []
  ∧ Forall (fun p => ∃ text, read_text t p = Ok text ∧ unnamed text) paths.
Proof.
  revert skills. induction paths as [|p paths IH]; intros skills; simpl.
  - split; [by intros [= ->]|by intros [-> _]].
  - rewrite Forall_cons. unfold unnamed at 1.
    destruct (read_text t p) as [text|e]; simpl.
    2: { split; [done|]. by intros (_ & (text & ? & _) & _). }
    destruct (strip _) as [|c name] eqn:Hname.
    + rewrite IH. split.
      * intros [-> H]. repeat split; [|done]. by exists text.
      * by intros (-> & _ & H).
    + rewrite IH. split.
      * intros [H _]. by destruct skills.
      * intros (_ & (text' & [= <-] & H) & _). congruence.
Qed.

(** No skill is collected exactly when every descriptor file reads as a
    text without a name. *)
Lemma collect_skills_none (t : node) :
  collect_skills t = Ok [] ↔
  ∀ p, p ∈ glob_skills t → ∃ text, read_text t p = Ok text ∧ unnamed text.
Proof.
  unfold collect_skills. rewrite collect_loop_none, Forall_forall.
  setoid_rewrite sorted_paths_elem. split; [by intros [_ H]|by split].
Qed.

Lemma collect_loop_names (t : node) (paths : list path) (skills : list str) :
  (∀ p, p ∈ paths → ∃ text, read_text t p = Ok text) →
  collect_loop t paths skills = Ok (skills ++ omap (declared_name t) paths).
Proof.
  revert skills. induction paths as [|p paths IH]; intros skills H; simpl.
  { by rewrite app_nil_r. }
  destruct (H p) as [text Ht]; [apply list_elem_of_here|].
  unfold declared_name at 1. rewrite Ht. simpl.
  assert (H' : ∀ q, q ∈ paths → ∃ text, read_text t q = Ok text).
  { intros q Hq. by apply H, list_elem_of_further. }
  destruct (strip _) as [|c name]; rewrite IH by done; [done|].
  by rewrite <- app_assoc.
Qed.

Lemma collect_loop_reads (t : node) (paths : list path)
    (skills names : list str) :
  collect_loop t paths skills = Ok names →
  ∀ p, p ∈ paths → ∃ text, read_text t p = Ok text.
Proof.
  revert skills. induction paths as [|p paths IH]; intros skills H q Hq.
  { by apply elem_of_nil in Hq. }
  simpl in H. destruct (read_text t p) as [text|e] eqn:Ht; [|done].
  simpl in H. apply elem_of_cons in Hq as [->|Hq]; [by exists text|].
  destruct (strip _); by eapply IH.
Qed.



(** ** What [mkdir] and [write_text] touch *)

Lemma mkdir_frame (c : str) (p : path) (w w' : world) (r : result unit) :
  mkdir (parent (c :: p)) w = (r, w') →
  ∀ k, k ≠ c → same_entry k (tree w) (tree w').
Proof.
  unfold mkdir.
  destruct (mkdir_parents _ _) as [t|e] eqn:Hm; intros [= _ <-] k Hk; [|done].
  by apply (mkdir_parent_frame _ _ c k p).
Qed.

Lemma write_text_frame (c : str) (p : path) (content : str) (w w' : world)
    (r : result unit) :
  write_text (c :: p) content w = (r, w') →
  ∀ k, k ≠ c → same_entry k (tree w) (tree w').
Proof.
  unfold write_text.
  destruct (write_below _ _ _ _) as [t|e] eqn:Hw; intros [= _ <-] k Hk; [|done].
  by eapply write_below_frame.
Qed.

(** A call of [write_text] that returns had a content with an encoding,
    and leaves it in the file. *)
Lemma write_text_returns (p : path) (content : str) (w w' : world)
    (u : unit) :
  write_text p content w = (Ok u, w') →
  encodable content = true
  ∧ lookup_path (tree w') p = Some (File content).
Proof.
  unfold write_text. destruct (encodable content).
  - destruct (write_below _ _ _ _) as [t|e] eqn:Hw; [|done].
    intros [= _ <-]. split; [done|].
    by apply (write_below_lookup p content (tree w)).
  - by destruct (write_below _ _ _ _).
Qed.

Tactic Notation "unfold_main" "with" constr(H) :=
  unfold Script.main, main_body; rewrite H; unfold_M.
Tactic Notation "unfold_main" "with" constr(H) "in" hyp(H') :=
  unfold Script.main, main_body in H'; rewrite H in H'; unfold_M in H'.

Section sync.

Variable json_loads : str -> option json.
Variable json_dumps : json -> str.
Variable parse_args : list str -> parsed.

Local Abbreviation load_json := (load_json json_loads).
Local Abbreviation build_cursor_plugin_manifest :=
  (build_cursor_plugin_manifest json_loads).
Local Abbreviation extract_mcp_from_gemini :=
  (extract_mcp_from_gemini json_loads).
Local Abbreviation build_mcp_config := (build_mcp_config json_loads).
Local Abbreviation render_json := (render_json json_dumps).
Local Abbreviation main := (main json_loads json_dumps parse_args).

Lemma load_json_agree (k : str) (t t' : node) (p : path) :
  same_entry k t t' → load_json t (k :: p) = load_json t' (k :: p).
Proof.
  intros H. unfold Script.load_json.
  rewrite <- (same_entry_exists k t t' p H).
  destruct (path_exists t (k :: p)) eqn:He; [|done].
  by rewrite (same_entry_read_text k t t' p H He).
Qed.

Lemma builders_agree (t t' : node) :
  same_inputs t t' →
  build_cursor_plugin_manifest t = build_cursor_plugin_manifest t'
  ∧ build_mcp_config t = build_mcp_config t'.
Proof.
  intros (Hc & Hs & Hg). split.
  - unfold Script.build_cursor_plugin_manifest, CLAUDE_PLUGIN_MANIFEST.
    by rewrite (load_json_agree _ t t' _ Hc), (collect_skills_agree t t' Hs).
  - unfold Script.build_mcp_config, Script.extract_mcp_from_gemini,
      GEMINI_EXTENSION.
    by rewrite (load_json_agree _ t t' _ Hg), (same_entry_exists _ t t' _ Hg).
Qed.

(** A run stops at the first builder that raises, with the tree and the
    trace as they were. *)
Lemma main_builder_raises (argv : list str) (check : bool) (w : world)
    (e : exn) :
  parse_args argv = Namespace check →
  build_cursor_plugin_manifest (tree w) = Raise e
  ∨ (∃ m, build_cursor_plugin_manifest (tree w) = Ok m)
    ∧ build_mcp_config (tree w) = Raise e →
  main argv w = (Uncaught e, w).
Proof.
  intros Hargs. unfold_main with Hargs.
  intros [H|[[m Hm] H]].
  - by rewrite H.
  - by rewrite Hm, H.
Qed.

Lemma write_or_check_check (p : path) (content : str) (w : world) :
  ∃ r, write_or_check p content true w = (r, w).
Proof.
  unfold write_or_check. unfold_M.
  destruct (if path_exists (tree w) p then _ else _) as [current|e];
    [|by eexists].
  destruct (bool_decide (current = Some content)); by eexists.
Qed.

(** A file that already holds the content is left alone. *)
Lemma write_or_check_current (p : path) (content : str) (check : bool)
    (w : world) :
  lookup_path (tree w) p = Some (File content) →
  write_or_check p content check w = (Ok true, w).
Proof.
  intros H. unfold write_or_check. unfold_M. unfold path_exists, read_text.
  rewrite H. cbn [fmap result_fmap].
  by rewrite bool_decide_eq_true_2.
Qed.

(** In write mode, a call that returns leaves the content in the file
    and touches no other entry of [ROOT]. *)
Lemma write_or_check_write (c : str) (p : path) (content : str)
    (w w' : world) (b : bool) :
  write_or_check (c :: p) content false w = (Ok b, w') →
  lookup_path (tree w') (c :: p) = Some (File content)
  ∧ ∀ k, k ≠ c → same_entry k (tree w) (tree w').
Proof.
  unfold write_or_check. unfold_M.
  assert (Hcur : ∀ current,
    (if path_exists (tree w) (c :: p)
     then Some <$> read_text (tree w) (c :: p) else Ok None) = Ok current →
    current = Some content →
    lookup_path (tree w) (c :: p) = Some (File content)).
  { intros current. unfold path_exists, read_text.
    destruct (lookup_path (tree w) (c :: p)) as [[text| |es]|];
      cbn [fmap result_fmap]; try done; by intros [= <-] [= ->]. }
  destruct (if path_exists _ _ then _ else _) as [current|e]; [|done].
  case_bool_decide as Hc.
  - intros [= _ <-]. split; [by apply (Hcur current)|done].
  - destruct (mkdir (parent (c :: p)) w) as [[[]|e] w1] eqn:Hm; [|done].
    destruct (write_text (c :: p) content w1) as [[[]|e] w2] eqn:Hw; [|done].
    intros [= _ <-]. split.
    + by apply write_text_returns in Hw as [_ Hw].
    + intros k Hk. apply (same_entry_trans k _ (tree w1)).
      * by apply (mkdir_frame c p w w1 _ Hm).
      * by apply (write_text_frame c p content w1 w2 _ Hw).
Qed.

Lemma input_entries_kept (t t1 t2 : node) :
  (∀ k, k ≠ str_of ".cursor-plugin" → same_entry k t t1) →
  (∀ k, k ≠ str_of ".mcp.json" → same_entry k t1 t2) →
  same_inputs t t2.
Proof.
  intros H1 H2. repeat split.
  all: eapply same_entry_trans; [apply H1|apply H2].
  all: by apply (bool_decide_eq_false_1 _); vm_compute.
Qed.

(** C5. In check mode, that is when the arguments are parsed with
    [check] set, the run leaves the tree as it found it and calls
    neither [mkdir] nor [write_text], whatever the tree holds and
    whatever the run ends with. *)
Theorem check_mode_reads_only (argv : list str) (w : world) :
  parse_args argv = Namespace true →
  ∃ o, main argv w = (o, w).
Proof.
  intros Hargs. unfold_main with Hargs.
  destruct (build_cursor_plugin_manifest (tree w)) as [m|e]; [|by eexists].
  destruct (build_mcp_config (tree w)) as [c|e]; [|by eexists].
  cbn [fmap result_fmap compose].
  destruct (write_or_check_check CURSOR_PLUGIN_MANIFEST
              (render_json (JDict m)) w) as [r1 ->].
  destruct r1 as [ok_plugin|e]; [|by eexists].
  destruct (write_or_check_check CURSOR_MCP_CONFIG (render_json c) w)
    as [r2 ->].
  destruct r2 as [ok_mcp|e]; [|by eexists].
  destruct (_ ++ _); by eexists.
Qed.

(** C6. After a write-mode run that returned, the two builders give
    on the new tree what they gave on the old one, each output file
    holds the rendered document, and a second write-mode run returns
    the same lines and leaves the tree and the trace as they are: it
    calls neither [mkdir] nor [write_text]. *)
Theorem write_mode_idempotent (argv : list str) (w w1 : world)
    (out : list str) :
  parse_args argv = Namespace false →
  main argv w = (Returned out, w1) →
  main argv w1 = (Returned out, w1)
  ∧ ∃ m c,
      build_cursor_plugin_manifest (tree w) = Ok m
      ∧ build_mcp_config (tree w) = Ok c
      ∧ build_cursor_plugin_manifest (tree w1) = Ok m
      ∧ build_mcp_config (tree w1) = Ok c
      ∧ read_text (tree w1) CURSOR_PLUGIN_MANIFEST = Ok (render_json (JDict m))
      ∧ read_text (tree w1) CURSOR_MCP_CONFIG = Ok (render_json c).
Proof.
  intros Hargs H. unfold_main with Hargs in H.
  destruct (build_cursor_plugin_manifest (tree w)) as [m|e] eqn:Hm; [|done].
  destruct (build_mcp_config (tree w)) as [c|e] eqn:Hc; [|done].
  cbn [fmap result_fmap compose] in H.
  destruct (write_or_check CURSOR_PLUGIN_MANIFEST _ false w)
    as [[ok_plugin|e] wa] eqn:H1; [|done].
  destruct (write_or_check CURSOR_MCP_CONFIG _ false wa)
    as [[ok_mcp|e] wb] eqn:H2; [|done].
  injection H as <- <-.
  apply (write_or_check_write (str_of ".cursor-plugin")
           [str_of "plugin.json"]) in H1 as [Hl1 Hf1].
  apply (write_or_check_write (str_of ".mcp.json") []) in H2 as [Hl2 Hf2].
  change [str_of ".mcp.json"] with CURSOR_MCP_CONFIG in Hl2.
  assert (Hl1' : lookup_path (tree wb) CURSOR_PLUGIN_MANIFEST
                 = Some (File (render_json (JDict m)))).
  { rewrite <- Hl1. symmetry. apply same_entry_lookup, Hf2.
    by apply (bool_decide_eq_false_1 _); vm_compute. }
  destruct (builders_agree (tree w) (tree wb)
              (input_entries_kept _ _ _ Hf1 Hf2)) as [Hm' Hc'].
  rewrite Hm in Hm'. rewrite Hc in Hc'. split.
  - unfold_main with Hargs. rewrite <- Hm', <- Hc'.
    cbn [fmap result_fmap compose].
    rewrite (write_or_check_current CURSOR_PLUGIN_MANIFEST _ false wb Hl1').
    by rewrite (write_or_check_current CURSOR_MCP_CONFIG _ false wb Hl2).
  - exists m, c. unfold read_text. by rewrite Hl1', Hl2.
Qed.




End sync.

(** ** The matcher: when a run finds a match *)

Lemma star_is_Some {A} (p : N → bool) (n : nat) (s : str) (g : option str)
    (k : mstate → option A) :
  is_Some (star p n s g k) ↔
  ∃ i, i ≤ length s ∧ forallb p (take i s) = true
       ∧ is_Some (k (MState (n + i) (drop i s) g)).
Proof.
  revert n. induction s as [|c t IH]; intros n; simpl.
  - split.
    + intros H. exists 0. rewrite Nat.add_0_r. by repeat split.
    + intros (i & Hi & _ & H). assert (i = 0) as -> by lia.
      by rewrite Nat.add_0_r in H.
  - destruct (p c) eqn:Hc.
    + trans (is_Some (star p (S n) t g k) ∨ is_Some (k (MState n (c :: t) g))).
      { destruct (star p (S n) t g k); split; eauto.
        - intros [H|H]; [by apply is_Some_None in H|done]. }
      rewrite IH. split.
      * intros [(i & Hi & Hp & H)|H].
        -- exists (S i). simpl. rewrite Hc, Hp.
           replace (n + S i) with (S n + i) by lia. repeat split; [lia|done].
        -- exists 0. rewrite Nat.add_0_r. repeat split; [lia|done].
      * intros ([|i] & Hi & Hp & H).
        -- right. by rewrite Nat.add_0_r in H.
        -- left. exists i. simpl in Hp, H. rewrite Hc in Hp.
           replace (n + S i) with (S n + i) in H by lia.
           repeat split; [lia|done|done].
    + split.
      * intros H. exists 0. rewrite Nat.add_0_r. repeat split; [lia|done].
      * intros ([|i] & Hi & Hp & H).
        -- by rewrite Nat.add_0_r in H.
        -- simpl in Hp. by rewrite Hc in Hp.
Qed.

Section is_Some.
Context {A : Type}.
Implicit Types (st : mstate) (k : mstate → option A).

Lemma or_else_is_Some (x y : option A) :
  is_Some (match x with Some m => Some m | None => y end)
  ↔ is_Some x ∨ is_Some y.
Proof.
  destruct x as [m|].
  - split; [by left|by eexists].
  - split; [by right|]. intros [H|H]; [by apply is_Some_None in H|done].
Qed.

Lemma bos_is_Some st k :
  is_Some (run Bos st k) ↔ pos st = 0 ∧ is_Some (k st).
Proof.
  cbn [run]. destruct (pos st).
  - by split; [|intros [_ ?]].
  - split; [by intros [? ?]|by intros [? _]].
Qed.

Lemma eos_is_Some st k :
  is_Some (run Eos st k) ↔ at_end (rest st) = true ∧ is_Some (k st).
Proof.
  cbn [run]. destruct (at_end (rest st)).
  - by split; [|intros [_ ?]].
  - split; [by intros [? ?]|by intros [? _]].
Qed.

Lemma chr_is_Some p st k :
  is_Some (run (Chr p) st k) ↔
  ∃ c t, rest st = c :: t ∧ p c = true ∧ is_Some (k (advance st t)).
Proof.
  cbn [run]. destruct (rest st) as [|c t].
  - split; [by intros [? ?]|by intros (? & ? & ? & _)].
  - destruct (p c) eqn:Hc.
    + split; [by exists c, t|]. by intros (? & ? & [= <- <-] & _ & ?).
    + split; [by intros [? ?]|]. intros (? & ? & [= <- <-] & ? & _). congruence.
Qed.

Lemma run_seq r1 r2 st k :
  run (Seq r1 r2) st k = run r1 st (fun st' => run r2 st' k).
Proof. reflexivity. Qed.

Lemma opt_is_Some r st k :
  is_Some (run (Opt r) st k) ↔ is_Some (run r st k) ∨ is_Some (k st).
Proof. cbn [run]. apply or_else_is_Some. Qed.

Lemma run_star_is_Some p st k :
  is_Some (run (Star p) st k) ↔
  ∃ i, i ≤ length (rest st) ∧ forallb p (take i (rest st)) = true
       ∧ is_Some (k (MState (pos st + i) (drop i (rest st)) (grp st))).
Proof. cbn [run]. apply star_is_Some. Qed.

End is_Some.

Lemma at_end_cases (t : str) : at_end t = true ↔ t = [] ∨ t = [10%N].
Proof.
  destruct t as [|c [|c' t]]; simpl.
  - split; eauto.
  - rewrite N.eqb_eq. split; [intros ->; eauto|]. by intros [?|[= ->]].
  - split; [done|]. by intros [?|?].
Qed.

Lemma re_match_name (s : str) :
  is_Some (re_match PLUGIN_NAME_RE s) ↔
  ∃ c t, s = c :: t ∧ lower_alnum c = true
    ∧ (at_end t = true
       ∨ ∃ mid c' t', t = mid ++ c' :: t'
           ∧ forallb name_inner mid = true
           ∧ lower_alnum c' = true ∧ at_end t' = true).
Proof.
  unfold re_match, PLUGIN_NAME_RE.
  rewrite run_seq, bos_is_Some, run_seq, chr_is_Some.
  cbn [pos rest]. split.
  - intros (_ & c & t & -> & Hc & H). exists c, t. repeat split; [done|].
    rewrite run_seq, opt_is_Some, run_seq, run_star_is_Some in H.
    destruct H as [(i & Hi & Hp & H)|H].
    + right. apply chr_is_Some in H as (c' & t' & Hd & Hc' & H).
      apply eos_is_Some in H as [He _]. cbn [rest advance] in *.
      exists (take i t), c', t'. by rewrite <- Hd, take_drop.
    + left. by apply eos_is_Some in H as [He _].
  - intros (c & t & -> & Hc & H). split; [done|]. exists c, t.
    repeat split; [done|].
    rewrite run_seq, opt_is_Some, run_seq, run_star_is_Some.
    destruct H as [He|(mid & c' & t' & -> & Hp & Hc' & He)].
    + right. by apply eos_is_Some.
    + left. exists (length mid). cbn [rest advance].
      rewrite length_app, take_app_length, drop_app_length.
      repeat split; [lia|done|]. apply chr_is_Some. exists c', t'.
      repeat split; [done|]. by apply eos_is_Some.
Qed.

(** ** The naming rule *)

Lemma forallb_rev {A} (p : A → bool) (l : list A) :
  forallb p (rev l) = forallb p l.
Proof.
  induction l as [|x l IH]; [done|]. simpl.
  rewrite forallb_app, IH. simpl. rewrite andb_true_r. apply andb_comm.
Qed.

Lemma name_ok_shape (s : str) :
  name_ok s = true ↔
  ∃ c t, s = c :: t ∧ lower_alnum c = true
    ∧ (t = []
       ∨ ∃ mid c', t = mid ++ [c'] ∧ forallb name_inner mid = true
                   ∧ lower_alnum c' = true).
Proof.
  destruct s as [|c t]; simpl.
  { split; [done|]. by intros (c & t & ? & _). }
  rewrite andb_true_iff. split.
  - intros [Hc Ht]. exists c, t. repeat split; [done|].
    destruct (rev t) as [|l interior] eqn:Hr.
    + left. by rewrite <- (rev_involutive t), Hr.
    + right. apply andb_true_iff in Ht as [Hl Hi].
      exists (rev interior), l. rewrite forallb_rev.
      by rewrite <- (rev_involutive t), Hr.
  - intros (c0 & t0 & [= <- <-] & Hc & [->|(mid & c' & -> & Hp & Hc')]).
    + by split.
    + split; [done|]. rewrite rev_app_distr. simpl.
      by rewrite Hc', forallb_rev, Hp.
Qed.

(** [validate_plugin_name] accepts the names of the rule and those names
    followed by one line feed, and no other. *)
Lemma validate_plugin_name_accepts (s : str) :
  validate_plugin_name s = Ok tt ↔
  name_ok s = true ∨ ∃ s', s = s' ++ [10%N] ∧ name_ok s' = true.
Proof.
  trans (is_Some (re_match PLUGIN_NAME_RE s)).
  { unfold validate_plugin_name.
    destruct (re_match PLUGIN_NAME_RE s) as [m|].
    - by split; [eexists|].
    - by split; [|intros [? ?]]. }
  rewrite re_match_name. setoid_rewrite name_ok_shape.
  setoid_rewrite at_end_cases. split.
  - intros (c & t & -> & Hc & [[->| ->]|(mid & c' & t' & -> & Hp & Hc' & [->| ->])]).
    + left. exists c, []. eauto.
    + right. exists [c]. split; [done|]. exists c, []. eauto.
    + left. exists c, (mid ++ [c']). repeat split; [done|]. right. eauto.
    + right. exists (c :: mid ++ [c']). split.
      * simpl. by rewrite <- app_assoc.
      * exists c, (mid ++ [c']). repeat split; [done|]. right. eauto.
  - intros [(c & t & -> & Hc & [->|(mid & c' & -> & Hp & Hc')])
           |(s' & -> & c & t & -> & Hc & [->|(mid & c' & -> & Hp & Hc')])].
    + exists c, []. eauto.
    + exists c, (mid ++ [c']). repeat split; [done|].
      right. exists mid, c', []. eauto.
    + exists c, [10%N]. eauto.
    + exists c, (mid ++ [c'; 10%N]). split; [|split; [done|]].
      * simpl. by rewrite <- app_assoc.
      * right. exists mid, c', [10%N]. eauto.
Qed.

(** ** The properties on the sample inputs *)

Lemma parse_frontmatter_last_line_wins_witness :
  re_search FRONTMATTER_RE skill_text ≠ None
  ∧ dict_get (str_of "name") (parse_frontmatter skill_text)
    = Some (str_of "alpha").
Proof.
  destruct (re_search FRONTMATTER_RE skill_text) as [m|] eqn:Hm.
  - split; [discriminate|].
    rewrite (proj1 (parse_frontmatter_last_line_wins skill_text m Hm)).
    vm_compute in Hm. injection Hm as <-. vm_compute. reflexivity.
  - vm_compute in Hm. discriminate.
Defined.

Lemma optional_fields_copied_witness :
  dict_get (str_of "version") sample_manifest = Some (JStr (str_of "1.0.0"))
  ∧ dict_in (str_of "license") sample_manifest = true
  ∧ dict_in (str_of "author") sample_manifest = false.
Proof.
  assert (Hl : load_json sample_loads sample_root CLAUDE_PLUGIN_MANIFEST
               = Ok manifest_doc) by (vm_compute; reflexivity).
  assert (Hb : build_cursor_plugin_manifest sample_loads sample_root
               = Ok sample_manifest) by (vm_compute; reflexivity).
  assert (Hv : str_of "version" ∈ optional_fields)
    by (apply (bool_decide_unpack _); vm_compute; exact I).
  assert (Hi : str_of "license" ∈ optional_fields)
    by (apply (bool_decide_unpack _); vm_compute; exact I).
  assert (Ha : str_of "author" ∈ optional_fields)
    by (apply (bool_decide_unpack _); vm_compute; exact I).
  split; [|split].
  - rewrite (proj1 (optional_fields_copied sample_loads sample_root _
                      sample_manifest _ Hl Hb Hv)).
    reflexivity.
  - rewrite (proj2 (optional_fields_copied sample_loads sample_root _
                      sample_manifest _ Hl Hb Hi)).
    reflexivity.
  - rewrite (proj2 (optional_fields_copied sample_loads sample_root _
                      sample_manifest _ Hl Hb Ha)).
    reflexivity.
Defined.

Lemma mcp_fallback_witness :
  build_mcp_config sample_loads no_metadata_root = Ok default_document
  ∧ build_mcp_config sample_loads
      (sample_tree None (Some no_servers_text) []) = Ok default_document
  ∧ build_mcp_config sample_loads
      (sample_tree None (Some string_server_text) []) = Ok default_document.
Proof.
  split; [|split].
  - apply (proj1 (mcp_fallback sample_loads no_metadata_root)).
    vm_compute. reflexivity.
  - apply (proj1 (proj2 (mcp_fallback sample_loads _))
             [(str_of "mcpServers", JDict [])]).
    + vm_compute. reflexivity.
    + intros entry servers. vm_compute. discriminate.
  - apply (proj2 (proj2 (mcp_fallback sample_loads _))
             [(str_of "mcpServers",
               JDict [(str_of "hf", JStr (str_of "http://x"))])]
             (str_of "hf") (JStr (str_of "http://x")) []).
    + vm_compute. reflexivity.
    + vm_compute. reflexivity.
    + intros server_cfg. discriminate.
Defined.

(** C3 fails: an extension config that exists and holds a list has no
    [mcpServers] mapping, and the builder raises instead of giving the
    default document. *)
Lemma mcp_fallback_counterexample :
  path_exists (sample_tree None (Some list_text) []) GEMINI_EXTENSION = true
  ∧ load_json more_loads (sample_tree None (Some list_text) [])
      GEMINI_EXTENSION = Ok (JList [])
  ∧ build_mcp_config more_loads (sample_tree None (Some list_text) [])
    = Raise AttributeError
  ∧ Raise AttributeError ≠ Ok default_document.
Proof. repeat split; by vm_compute. Qed.

Lemma url_resolution_witness :
  ∃ url,
    extract_mcp_from_gemini sample_loads sample_root = Ok (str_of "hf", url)
    ∧ url = str_of "https://example.org/mcp".
Proof.
  destruct (url_resolution sample_loads sample_root
              [(str_of "mcpServers", JDict [(str_of "hf", JDict gemini_cfg)])]
              (str_of "hf") gemini_cfg []
              ltac:(vm_compute; reflexivity) ltac:(vm_compute; reflexivity))
    as (url & He & _ & Hh & _).
  exists url. split; [exact He|]. apply Hh.
  - vm_compute. reflexivity.
  - split; [reflexivity|]. vm_compute. discriminate.
Defined.

(** C1 fails: a [url] that is a number hides a usable [httpUrl]. *)
Lemma url_rule_counterexample :
  load_json sample_loads number_url_root GEMINI_EXTENSION = Ok number_url_doc
  ∧ extract_mcp_from_gemini sample_loads number_url_root
    = Ok (str_of "hf", DEFAULT_MCP_URL)
  ∧ claimed_url number_url_cfg = str_of "http://x"
  ∧ DEFAULT_MCP_URL ≠ str_of "http://x".
Proof. repeat split; by vm_compute. Qed.

Lemma check_mode_reads_only_witness :
  ∃ o, main sample_loads sample_dumps sample_parse_args check_argv
         (start sample_root) = (o, start sample_root).
Proof.
  apply (check_mode_reads_only sample_loads sample_dumps sample_parse_args
           check_argv (start sample_root)).
  vm_compute. reflexivity.
Defined.

Lemma write_mode_idempotent_witness :
  main sample_loads sample_dumps sample_parse_args write_argv
    (start sample_root)
  = (Returned wrote_lines, after_first_run)
  ∧ main sample_loads sample_dumps sample_parse_args write_argv
      after_first_run
    = (Returned wrote_lines, after_first_run).
Proof.
  assert (Hargs : sample_parse_args write_argv = Namespace false)
    by (vm_compute; reflexivity).
  assert (H : main sample_loads sample_dumps sample_parse_args write_argv
                (start sample_root)
              = (Returned wrote_lines, after_first_run))
    by (vm_compute; reflexivity).
  split; [exact H|].
  exact (proj1 (write_mode_idempotent sample_loads sample_dumps
                  sample_parse_args _ _ _ _ Hargs H)).
Defined.





(** C2. The naming rule rejects a name that ends with a line feed;
    [validate_plugin_name] accepts it, since [$] also matches before a
    final line feed, and the builder puts it in the manifest. *)
Theorem trailing_newline_name_accepted :
  name_ok (str_of "a" ++ [10%N]) = false
  ∧ validate_plugin_name (str_of "a" ++ [10%N]) = Ok tt
  ∧ build_cursor_plugin_manifest sample_loads newline_name_root
    = Ok (base_manifest (str_of "a" ++ [10%N])).
Proof. repeat split; by vm_compute. Qed.

(** C7. The [name] of a manifest that is produced need not be a valid
    one: for metadata whose name is [a] followed by a line feed, with a
    skill to discover, the manifest holds [skills] and [mcpServers] with
    the two literals and, under [name], that name, which breaks the
    naming rule. *)
Theorem manifest_name_not_validated :
  ∃ m,
    build_cursor_plugin_manifest sample_loads newline_name_root = Ok m
    ∧ dict_get (str_of "skills") m = Some (JStr (str_of "skills"))
    ∧ dict_get (str_of "mcpServers") m = Some (JStr (str_of ".mcp.json"))
    ∧ ∃ name,
        dict_get (str_of "name") m = Some (JStr name)
        ∧ name_ok name = false.
Proof.
  exists (base_manifest (str_of "a" ++ [10%N])).
  repeat split; [by vm_compute..|].
  exists (str_of "a" ++ [10%N]). split; by vm_compute.
Qed.

(** ** The script on the sample inputs *)

Example validate_accepts_dotted_name :
  validate_plugin_name (str_of "my-plugin.v2") = Ok tt.
Proof. by vm_compute. Qed.

Example validate_rejects_upper_case :
  validate_plugin_name (str_of "My_Plugin")
  = Raise (ValueError (invalid_name_message (str_of "My_Plugin"))).
Proof. by vm_compute. Qed.

Example validate_rejects_empty :
  validate_plugin_name [] = Raise (ValueError (invalid_name_message [])).
Proof. by vm_compute. Qed.

Example parse_frontmatter_sample :
  parse_frontmatter skill_text
  = [(str_of "name", str_of "alpha");
     (str_of "description", str_of "a skill")].
Proof. by vm_compute. Qed.

Example parse_frontmatter_no_block :
  parse_frontmatter (str_of "Body only.") = [].
Proof. by vm_compute. Qed.

Example collect_skills_sample :
  collect_skills sample_root = Ok [str_of "alpha"].
Proof. by vm_compute. Qed.

Example collect_skills_directory_descriptor :
  collect_skills (descriptor_root (Dir ∅))
  = Raise (IsADirectoryError
             [str_of "skills"; str_of "beta"; str_of "SKILL.md"]).
Proof. by vm_compute. Qed.

Example collect_skills_binary_descriptor :
  collect_skills (descriptor_root Binary) = Raise UnicodeDecodeError.
Proof. by vm_compute. Qed.

Example url_wins_over_httpUrl :
  extract_mcp_from_gemini sample_loads
    (sample_tree None (Some both_urls_text) [])
  = Ok (str_of "hf", str_of "http://u").
Proof. by vm_compute. Qed.

Example check_reports_drift :
  main sample_loads sample_dumps sample_parse_args check_argv
    (start sample_root)
  = (Exited 1 []
       [str_of "Generated Cursor artifacts are out of date:";
        str_of "  - .cursor-plugin/plugin.json";
        str_of "  - .mcp.json";
        str_of "Run: uv run scripts/generate_cursor_plugin.py"],
     start sample_root).
Proof. by vm_compute. Qed.

Example help_is_printed :
  main sample_loads sample_dumps sample_parse_args help_argv
    (start sample_root)
  = (Exited 0 help_lines [], start sample_root).
Proof. by vm_compute. Qed.

Example bad_argument_is_refused :
  main sample_loads sample_dumps sample_parse_args bad_argv
    (start sample_root)
  = (Exited 2 [] usage_lines, start sample_root).
Proof. by vm_compute. Qed.

Example first_run_calls :
  map (fun e => match e with Mkdir p | WriteText p _ => p end)
    (trace after_first_run)
  = [CURSOR_PLUGIN_DIR; CURSOR_PLUGIN_MANIFEST; []; CURSOR_MCP_CONFIG].
Proof. by vm_compute. Qed.

Example check_after_first_run :
  main sample_loads sample_dumps sample_parse_args check_argv after_first_run
  = (Returned [str_of "Cursor plugin artifacts are up to date."],
     after_first_run).
Proof. by vm_compute. Qed.

Example lone_surrogate_empties_the_manifest :
  ∃ t,
    main all_loads sample_dumps sample_parse_args write_argv
      (start surrogate_root)
    = (Uncaught UnicodeEncodeError,
       World t [Mkdir CURSOR_PLUGIN_DIR;
                WriteText CURSOR_PLUGIN_MANIFEST
                  (render_json sample_dumps (JDict surrogate_manifest))])
    ∧ lookup_path t CURSOR_PLUGIN_MANIFEST = Some (File [])
    ∧ lookup_path t CURSOR_MCP_CONFIG = None.
Proof. eexists. repeat split; by vm_compute. Qed.

(** * Further properties of the script *)

(** ** Keys of a dictionary *)

Lemma dict_get_None_keys {V} (k : str) (d : list (str * V)) :
  dict_get k d = None ↔ k ∉ d.*1.
Proof.
  induction d as [|[k' v] d IH]; simpl.
  - split; [intros _; apply not_elem_of_nil|done].
  - rewrite not_elem_of_cons. destruct (decide (k = k')) as [->|Hne].
    + rewrite str_eqb_refl. split; [done|]. by intros [? _].
    + rewrite str_eqb_ne by done. rewrite IH. by split; [|intros [_ ?]].
Qed.

Lemma dict_set_fresh {V} (k : str) (v : V) (d : list (str * V)) :
  dict_get k d = None → dict_set k v d = d ++ [(k, v)].
Proof.
  induction d as [|[k' v'] d IH]; simpl; [done|].
  destruct (decide (k = k')) as [->|Hne].
  - by rewrite str_eqb_refl.
  - rewrite str_eqb_ne by done. intros H. by rewrite IH.
Qed.

Lemma copy_fields_keys (keys : list str) (src : dict json)
    (m : list (str * json)) :
  NoDup keys →
  (∀ k, k ∈ keys → dict_get k m = None) →
  (copy_fields keys src m).*1
  = m.*1 ++ filter (fun k => dict_in k src = true) keys.
Proof.
  revert m. induction keys as [|key keys IH]; intros m Hnd Hm; simpl.
  { by rewrite app_nil_r. }
  apply NoDup_cons in Hnd as [Hkey Hnd]. unfold dict_in at 1.
  destruct (dict_get key src) as [v|] eqn:Hv.
  - rewrite filter_cons_True by (unfold dict_in; by rewrite Hv).
    rewrite IH; [|done|].
    + rewrite dict_set_fresh by (apply Hm, list_elem_of_here).
      rewrite fmap_app. simpl. by rewrite <- app_assoc.
    + intros k Hk. rewrite dict_get_set_ne by (by intros ->).
      by apply Hm, list_elem_of_further.
  - rewrite filter_cons_False by (unfold dict_in; by rewrite Hv).
    apply IH; [done|]. intros k Hk. by apply Hm, list_elem_of_further.
Qed.

Lemma re_match_name_rule (s : str) :
  is_Some (re_match PLUGIN_NAME_RE s) →
  name_ok s = true ∨ last s = Some 10%N.
Proof.
  rewrite re_match_name.
  intros (c & t & -> & Hc & [He|(mid & c' & t' & -> & Hp & Hc' & He)]);
    apply at_end_cases in He as [->| ->].
  - left. apply name_ok_shape. exists c, []. eauto.
  - by right.
  - left. apply name_ok_shape. exists c, (mid ++ [c']).
    repeat split; [done|]. right. eauto.
  - right. replace (c :: mid ++ [c'; 10%N]) with ((c :: mid ++ [c']) ++ [10%N])
      by (simpl; by rewrite <- app_assoc).
    apply last_snoc.
Qed.

Lemma re_match_name_trailing (s : str) :
  is_Some (re_match PLUGIN_NAME_RE s) →
  name_ok s = true ∨ ∃ s', s = s' ++ [10%N] ∧ name_ok s' = true.
Proof.
  rewrite re_match_name.
  intros (c & t & -> & Hc & [He|(mid & c' & t' & -> & Hp & Hc' & He)]);
    apply at_end_cases in He as [->| ->].
  - left. apply name_ok_shape. exists c, []. eauto.
  - right. exists [c]. split; [done|]. apply name_ok_shape. exists c, []; eauto.
  - left. apply name_ok_shape. exists c, (mid ++ [c']).
    repeat split; [done|]. right. eauto.
  - right. exists (c :: mid ++ [c']). split.
    + simpl. by rewrite <- app_assoc.
    + apply name_ok_shape. exists c, (mid ++ [c']).
      repeat split; [done|]. right. eauto.
Qed.

Section manifest_more.

Variable json_loads : str -> option json.

Local Abbreviation load_json := (load_json json_loads).
Local Abbreviation build_cursor_plugin_manifest :=
  (build_cursor_plugin_manifest json_loads).

(** The keys of a manifest are [name], [skills], [mcpServers] and then
    the optional fields that the metadata holds, in the order of the
    whitelist whatever their order in the metadata; none occurs twice,
    and no other key of the metadata is copied. *)
Theorem manifest_keys (t : node) (src m : dict json) :
  load_json t CLAUDE_PLUGIN_MANIFEST = Ok (JDict src) →
  build_cursor_plugin_manifest t = Ok m →
  m.*1 = fixed_fields
         ++ filter (fun k => dict_in k src = true) optional_fields
  ∧ NoDup m.*1
  ∧ ∀ k, dict_in k m = true → k ∈ fixed_fields ++ optional_fields.
Proof.
  intros Hl Hb.
  destruct (build_cursor_plugin_manifest_ok json_loads t m Hb)
    as (src' & name & Hl' & _ & _ & _ & ->).
  rewrite Hl in Hl'. injection Hl' as <-.
  assert (Hkeys : (copy_fields optional_fields src (base_manifest name)).*1
    = fixed_fields ++ filter (fun k => dict_in k src = true) optional_fields).
  { rewrite copy_fields_keys; [done| |].
    - by apply (bool_decide_unpack _); vm_compute.
    - intros k Hk. by apply base_manifest_optional. }
  assert (Hsub : fixed_fields
                 ++ filter (fun k => dict_in k src = true) optional_fields
                 `sublist_of` fixed_fields ++ optional_fields).
  { apply sublist_app; [done|]. apply sublist_filter. }
  split; [done|]. split.
  - rewrite Hkeys. refine (sublist_NoDup _ _ _ Hsub).
    by apply (bool_decide_unpack _); vm_compute.
  - intros k Hk. unfold dict_in in Hk.
    destruct (dict_get k _) eqn:Hg; [|done].
    destruct (decide (k ∈ (copy_fields optional_fields src
                             (base_manifest name)).*1)) as [Hin|Hout].
    + rewrite Hkeys in Hin. by apply (elem_of_sublist _ _ _ Hin).
    + apply dict_get_None_keys in Hout. congruence.
Qed.

(** Every manifest that is produced holds, under [name], the name that
    the metadata holds, which follows the naming rule or is a name of the
    rule followed by one line feed; it holds [skills] with the literal
    [skills] and [mcpServers] with the literal [.mcp.json]; and the
    discovered skills do not change it: two trees with the same metadata
    file, each with some skill, give the same manifest. *)
Theorem manifest_name_and_literals (t : node) (m : dict json) :
  build_cursor_plugin_manifest t = Ok m →
  (∃ src name,
     load_json t CLAUDE_PLUGIN_MANIFEST = Ok (JDict src)
     ∧ get (str_of "name") src = JStr name
     ∧ dict_get (str_of "name") m = Some (JStr name)
     ∧ (name_ok name = true
        ∨ ∃ s, name = s ++ [10%N] ∧ name_ok s = true))
  ∧ dict_get (str_of "skills") m = Some (JStr (str_of "skills"))
  ∧ dict_get (str_of "mcpServers") m = Some (JStr (str_of ".mcp.json"))
  ∧ ∀ t' m',
      load_json t' CLAUDE_PLUGIN_MANIFEST = load_json t CLAUDE_PLUGIN_MANIFEST →
      build_cursor_plugin_manifest t' = Ok m' → m' = m.
Proof.
  intros Hb.
  destruct (build_cursor_plugin_manifest_ok json_loads t m Hb)
    as (src & name & Hl & Hn & Hv & _ & ->).
  assert (Hfixed : ∀ k, k ∉ optional_fields →
    dict_get k (copy_fields optional_fields src (base_manifest name))
    = dict_get k (base_manifest name)).
  { intros k Hk. by apply copy_fields_other. }
  split; [|split; [|split]].
  - exists src, name. repeat split; [done|done| |].
    + rewrite Hfixed; [done|].
      by apply (bool_decide_eq_false_1 _); vm_compute.
    + apply re_match_name_trailing. unfold validate_plugin_name in Hv.
      by destruct (re_match PLUGIN_NAME_RE name).
  - rewrite Hfixed; [done|]. by apply (bool_decide_eq_false_1 _); vm_compute.
  - rewrite Hfixed; [done|]. by apply (bool_decide_eq_false_1 _); vm_compute.
  - intros t' m' Hl' Hb'.
    destruct (build_cursor_plugin_manifest_ok json_loads t' m' Hb')
      as (src' & name' & Hl2 & Hn' & _ & _ & ->).
    rewrite Hl', Hl in Hl2. injection Hl2 as <-.
    rewrite Hn in Hn'. by injection Hn' as <-.
Qed.

(** Metadata that is a mapping without a [name] that is a non-empty
    string is refused with the message about the missing name, whatever
    the skills directory holds. *)
Theorem metadata_without_name (t : node) (src : dict json) :
  load_json t CLAUDE_PLUGIN_MANIFEST = Ok (JDict src) →
  (∀ c name, get (str_of "name") src ≠ JStr (c :: name)) →
  build_cursor_plugin_manifest t = Raise (ValueError missing_name_message).
Proof.
  intros Hl Hn. unfold Script.build_cursor_plugin_manifest. rewrite Hl.
  cbn [mbind result_bind as_dict].
  destruct (get (str_of "name") src) as [| | | |[|c name]| |]; try done.
  by destruct (Hn c name).
Qed.

(** A non-empty name that breaks the naming rule and does not end with
    a line feed is refused with the message that quotes it, before the
    skills are looked at. *)
Theorem invalid_name_reported_first (t : node) (src : dict json)
    (name : str) :
  load_json t CLAUDE_PLUGIN_MANIFEST = Ok (JDict src) →
  get (str_of "name") src = JStr name →
  name ≠ [] →
  name_ok name = false →
  last name ≠ Some 10%N →
  build_cursor_plugin_manifest t
  = Raise (ValueError (invalid_name_message name)).
Proof.
  intros Hl Hn Hne Hrule Hlast. unfold Script.build_cursor_plugin_manifest.
  rewrite Hl. cbn [mbind result_bind as_dict]. rewrite Hn.
  destruct name as [|c name]; [done|].
  unfold validate_plugin_name.
  destruct (re_match PLUGIN_NAME_RE (c :: name)) as [m|] eqn:Hm; [|done].
  destruct (re_match_name_rule (c :: name)) as [Hok|Hnl]; [by rewrite Hm| |];
    congruence.
Qed.

(** Metadata that is valid JSON without being a mapping makes the
    builder raise [AttributeError]. *)
Theorem metadata_not_a_mapping (t : node) (v : json) :
  load_json t CLAUDE_PLUGIN_MANIFEST = Ok v →
  (∀ src, v ≠ JDict src) →
  build_cursor_plugin_manifest t = Raise AttributeError.
Proof.
  intros Hl Hv. unfold Script.build_cursor_plugin_manifest. rewrite Hl.
  destruct v; try done. by destruct (Hv d).
Qed.

End manifest_more.

(** ** The matcher: what a match went through *)

Section sound.
Context {A : Type} (Q : option A → Prop) (HQ : ¬ Q None).
Implicit Types (st : mstate) (k : mstate → option A).

Lemma bos_sound st k : Q (run Bos st k) → pos st = 0 ∧ Q (k st).
Proof using HQ. cbn [run]. by destruct (pos st). Qed.

Lemma chr_sound p st k :
  Q (run (Chr p) st k) →
  ∃ c t, rest st = c :: t ∧ p c = true ∧ Q (k (advance st t)).
Proof using HQ.
  cbn [run]. destruct (rest st) as [|c t]; [done|].
  destruct (p c) eqn:Hc; [|done]. by exists c, t.
Qed.

Lemma lit_sound s0 st k :
  Q (run (lit s0) st k) →
  ∃ t, rest st = s0 ++ t ∧ Q (k (MState (pos st + length s0) t (grp st))).
Proof using HQ.
  revert st. induction s0 as [|c s0 IH]; intros st.
  - simpl. intros H. exists (rest st). rewrite Nat.add_0_r. by destruct st.
  - change (lit (c :: s0)) with (Seq (Chr (N.eqb c)) (lit s0)).
    rewrite run_seq. intros (c' & t & Hr & Hc & H)%chr_sound.
    apply N.eqb_eq in Hc as <-.
    apply IH in H as (t' & Ht & H). cbn [advance rest pos grp] in *.
    exists t'. split; [by rewrite Hr, Ht|]. cbn [length].
    by replace (pos st + S (length s0)) with (S (pos st) + length s0) by lia.
Qed.

Lemma star_sound p n s g k :
  Q (star p n s g k) →
  ∃ i, i ≤ length s ∧ forallb p (take i s) = true
       ∧ Q (k (MState (n + i) (drop i s) g)).
Proof using HQ.
  revert n. induction s as [|c t IH]; intros n; simpl.
  - intros H. exists 0. rewrite Nat.add_0_r. by repeat split.
  - assert (H0 : Q (k (MState n (c :: t) g)) →
      ∃ i, i ≤ S (length t) ∧ forallb p (take i (c :: t)) = true
           ∧ Q (k (MState (n + i) (drop i (c :: t)) g))).
    { intros H. exists 0. rewrite Nat.add_0_r. repeat split; [lia|done]. }
    destruct (p c) eqn:Hc; [|done].
    destruct (star p (S n) t g k) as [m|] eqn:Hs; [|done].
    intros H. rewrite <- Hs in H. apply IH in H as (i & Hi & Hp & H).
    exists (S i). simpl. rewrite Hc, Hp.
    replace (n + S i) with (S n + i) by lia. repeat split; [lia|done].
Qed.

Lemma star_lazy_sound p n s g k :
  Q (star_lazy p n s g k) →
  ∃ i, i ≤ length s ∧ forallb p (take i s) = true
       ∧ Q (k (MState (n + i) (drop i s) g)).
Proof using HQ.
  revert n. induction s as [|c t IH]; intros n; simpl.
  - destruct (k (MState n [] g)) as [m|] eqn:Hk; intros H; [|by destruct HQ].
    exists 0. rewrite Nat.add_0_r. simpl. by rewrite Hk.
  - destruct (k (MState n (c :: t) g)) as [m|] eqn:Hk.
    { intros H. exists 0. rewrite Nat.add_0_r. simpl. rewrite Hk.
      repeat split; [lia|done]. }
    destruct (p c) eqn:Hc; [|done].
    intros (i & Hi & Hp & H)%IH.
    exists (S i). simpl. rewrite Hc, Hp.
    replace (n + S i) with (S n + i) by lia. repeat split; [lia|done].
Qed.

Lemma run_star_sound p st k :
  Q (run (Star p) st k) →
  ∃ i, i ≤ length (rest st) ∧ forallb p (take i (rest st)) = true
       ∧ Q (k (MState (pos st + i) (drop i (rest st)) (grp st))).
Proof using HQ. apply star_sound. Qed.

Lemma run_star_lazy_sound p st k :
  Q (run (StarLazy p) st k) →
  ∃ i, i ≤ length (rest st) ∧ forallb p (take i (rest st)) = true
       ∧ Q (k (MState (pos st + i) (drop i (rest st)) (grp st))).
Proof using HQ. apply star_lazy_sound. Qed.

End sound.

Lemma run_group {A} (r : regex) (st : mstate) (k : mstate → option A) :
  run (Group r) st k
  = run r st (fun st' =>
      k (MState (pos st') (rest st')
           (Some (take (pos st' - pos st) (rest st))))).
Proof. reflexivity. Qed.

Lemma star_lazy_is_Some {A} (p : N → bool) (n : nat) (s : str)
    (g : option str) (k : mstate → option A) :
  is_Some (star_lazy p n s g k) ↔
  ∃ i, i ≤ length s ∧ forallb p (take i s) = true
       ∧ is_Some (k (MState (n + i) (drop i s) g)).
Proof.
  split; [apply star_lazy_sound, is_Some_None|].
  revert n. induction s as [|c t IH]; intros n (i & Hi & Hp & H); simpl.
  - assert (i = 0) as -> by (simpl in Hi; lia).
    rewrite Nat.add_0_r in H. simpl in H. by destruct (k (MState n [] g)).
  - destruct (k (MState n (c :: t) g)) as [m|] eqn:Hk; [by eexists|].
    destruct i as [|i].
    { rewrite Nat.add_0_r in H. simpl in H. rewrite Hk in H.
      by apply is_Some_None in H. }
    simpl in Hp, H, Hi. destruct (p c); [|done]. apply IH. exists i.
    replace (S n + i) with (n + S i) by lia. repeat split; [lia|done|done].
Qed.

Lemma run_star_lazy_is_Some {A} (p : N → bool) (st : mstate)
    (k : mstate → option A) :
  is_Some (run (StarLazy p) st k) ↔
  ∃ i, i ≤ length (rest st) ∧ forallb p (take i (rest st)) = true
       ∧ is_Some (k (MState (pos st + i) (drop i (rest st)) (grp st))).
Proof. cbn [run]. apply star_lazy_is_Some. Qed.

Lemma lit_is_Some {A} (s0 : str) (st : mstate) (k : mstate → option A) :
  is_Some (run (lit s0) st k) ↔
  ∃ t, rest st = s0 ++ t
       ∧ is_Some (k (MState (pos st + length s0) t (grp st))).
Proof.
  split; [apply lit_sound, is_Some_None|].
  revert st. induction s0 as [|c s0 IH]; intros st (t & Hr & H).
  - simpl. rewrite Nat.add_0_r in H. simpl in Hr. rewrite <- Hr in H.
    by destruct st.
  - change (lit (c :: s0)) with (Seq (Chr (N.eqb c)) (lit s0)).
    rewrite run_seq. apply chr_is_Some. exists c, (s0 ++ t). rewrite N.eqb_refl.
    repeat split; [done|]. apply IH. exists t. cbn [advance rest pos grp].
    split; [done|]. cbn [length] in H.
    by replace (S (pos st) + length s0) with (pos st + S (length s0)) by lia.
Qed.

Lemma search_from_bos (r : regex) (n : nat) (s : str) :
  search_from (Seq Bos r) (S n) s = None.
Proof. revert n. induction s as [|c s IH]; intros n; simpl; [done|apply IH]. Qed.

Lemma re_search_bos (r : regex) (s : str) :
  re_search (Seq Bos r) s = run r (MState 0 s None) Some.
Proof.
  unfold re_search. destruct s as [|c s]; simpl.
  - by destruct (run r _ _).
  - rewrite search_from_bos. by destruct (run r _ _).
Qed.

(** ** Where the header block is *)

(** A header block is found exactly when the text is [---], white space,
    a line feed, some block, a line feed and [---] again, and then the
    block that [parse_frontmatter] reads is delimited in this way: a text
    that does not start with [---] has no header. *)
Theorem frontmatter_block_found (text : str) :
  (is_Some (re_search FRONTMATTER_RE text) ↔
   ∃ ws block tail,
     text = str_of "---" ++ ws ++ [10%N] ++ block ++ [10%N]
            ++ str_of "---" ++ tail
     ∧ forallb is_space ws = true)
  ∧ ∀ m,
      re_search FRONTMATTER_RE text = Some m →
      ∃ ws ws',
        text = str_of "---" ++ ws ++ [10%N] ++ group1 m ++ [10%N]
               ++ str_of "---" ++ ws' ++ rest m
        ∧ forallb is_space ws = true
        ∧ forallb is_space ws' = true.
Proof.
  assert (Hsound : ∀ m, re_search FRONTMATTER_RE text = Some m →
    ∃ ws ws',
      text = str_of "---" ++ ws ++ [10%N] ++ group1 m ++ [10%N]
             ++ str_of "---" ++ ws' ++ rest m
      ∧ forallb is_space ws = true ∧ forallb is_space ws' = true).
  { intros m. unfold FRONTMATTER_RE. rewrite re_search_bos.
  assert (HQ : ¬ (None = Some m)) by done.
  intros H. rewrite run_seq in H.
  apply (lit_sound (λ o, o = Some m) HQ) in H as (t1 & Ht1 & H).
  rewrite run_seq in H.
  apply (run_star_sound (λ o, o = Some m) HQ) in H as (i & Hi & Hws & H).
  rewrite run_seq in H.
  apply (chr_sound (λ o, o = Some m) HQ) in H as (c & t2 & Hd1 & Hc & H).
  apply N.eqb_eq in Hc as <-.
  rewrite run_seq, run_group in H.
  apply (run_star_lazy_sound (λ o, o = Some m) HQ) in H as (j & Hj & _ & H).
  rewrite run_seq in H.
  apply (chr_sound (λ o, o = Some m) HQ) in H as (c & t3 & Hd2 & Hc & H).
  apply N.eqb_eq in Hc as <-.
  rewrite run_seq in H.
  apply (lit_sound (λ o, o = Some m) HQ) in H as (t4 & Ht4 & H).
  apply (run_star_sound (λ o, o = Some m) HQ) in H as (l & Hl & Hws' & H).
  cbn [advance pos rest grp] in *. injection H as <-.
  exists (take i t1), (take l t4). unfold group1.
  cbn [grp rest default from_option id].
  match goal with
  | |- context [take ?n t2] => replace n with j by lia
  end.
  repeat split; [|done|done].
  rewrite take_drop, <- Ht4.
  change ([10%N] ++ t3) with (10%N :: t3). rewrite <- Hd2, take_drop.
  change ([10%N] ++ t2) with (10%N :: t2). by rewrite <- Hd1, take_drop.
}
  split; [|done]. split.
  - intros [m Hm]. destruct (Hsound m Hm) as (ws & ws' & -> & Hws & _).
    by exists ws, (group1 m), (ws' ++ rest m).
  - intros (ws & block & tail & -> & Hws).
    unfold FRONTMATTER_RE. rewrite re_search_bos, run_seq.
    apply lit_is_Some. eexists. split; [reflexivity|]. cbn [pos rest grp].
    rewrite run_seq. apply run_star_is_Some. exists (length ws).
    cbn [pos rest grp]. rewrite length_app, take_app_length, drop_app_length.
    repeat split; [lia|done|]. rewrite run_seq. apply chr_is_Some.
    eexists _, _. split; [reflexivity|]. split; [done|].
    cbn [advance pos rest grp]. rewrite run_seq, run_group.
    apply run_star_lazy_is_Some. exists (length block).
    cbn [advance pos rest grp].
    rewrite length_app, take_app_length, drop_app_length.
    repeat split; [lia|by apply forallb_forall|].
    rewrite run_seq. apply chr_is_Some. eexists _, _.
    split; [reflexivity|]. split; [done|]. cbn [advance pos rest grp].
    rewrite run_seq. apply lit_is_Some. eexists. split; [reflexivity|].
    apply run_star_is_Some. exists 0. cbn [pos rest grp].
    split; [lia|]. split; [done|by eexists].
Qed.

(** ** Trimming *)

Lemma lstrip_idem (s : str) : lstrip (lstrip s) = lstrip s.
Proof.
  induction s as [|c s IH]; [done|]. simpl.
  destruct (is_space c) eqn:Hc; [done|]. simpl. by rewrite Hc.
Qed.

Lemma lstrip_snoc (s : str) (c : N) :
  is_space c = false → lstrip (s ++ [c]) = lstrip s ++ [c].
Proof.
  intros Hc. induction s as [|x s IH]; simpl.
  - by rewrite Hc.
  - by destruct (is_space x).
Qed.

Lemma rstrip_cons (c : N) (s : str) :
  is_space c = false → rstrip (c :: s) = c :: rstrip s.
Proof.
  intros Hc. unfold rstrip. simpl. rewrite lstrip_snoc by done.
  by rewrite rev_app_distr.
Qed.

Lemma rstrip_idem (s : str) : rstrip (rstrip s) = rstrip s.
Proof. unfold rstrip. by rewrite rev_involutive, lstrip_idem. Qed.

Lemma strip_idem (s : str) : strip (strip s) = strip s.
Proof.
  unfold strip. destruct (lstrip s) as [|c s'] eqn:Hs; [done|].
  assert (Hc : is_space c = false).
  { clear -Hs. induction s as [|x s IH]; [done|]. simpl in Hs.
    destruct (is_space x) eqn:Hx; [by apply IH|]. by injection Hs as <- _. }
  rewrite rstrip_cons by done. simpl. rewrite Hc.
  by rewrite rstrip_cons, rstrip_idem.
Qed.

Lemma parse_values_trimmed_loop (lines : list str) (data : list (str * str)) :
  Forall (fun kv => strip kv.1 = kv.1 ∧ strip kv.2 = kv.2) data →
  Forall (fun kv => strip kv.1 = kv.1 ∧ strip kv.2 = kv.2)
    (frontmatter_loop lines data).
Proof.
  revert data. induction lines as [|line lines IH]; intros data H; [done|].
  simpl. destruct (has_colon line); [|by apply IH].
  destruct (split_colon line) as [k v]. apply IH.
  clear IH. induction data as [|[k' v'] data IH]; simpl.
  - constructor; [|done]. simpl. by rewrite !strip_idem.
  - apply Forall_cons in H as [Hkv H].
    destruct (str_eqb (strip k) k') eqn:E.
    + apply str_eqb_eq in E as <-. constructor; [|done]. simpl.
      by rewrite !strip_idem.
    + constructor; [done|]. by apply IH.
Qed.

(** The keys and the values of a parsed header are trimmed. *)
Theorem parse_frontmatter_trimmed (text : str) (k v : str) :
  (k, v) ∈ parse_frontmatter text → strip k = k ∧ strip v = v.
Proof.
  intros H. unfold parse_frontmatter in H.
  destruct (re_search FRONTMATTER_RE text) as [m|];
    [|by apply elem_of_nil in H].
  pose proof (parse_values_trimmed_loop (splitlines (group1 m)) []
                (Forall_nil_2 _)) as Hall.
  rewrite Forall_forall in Hall. by apply (Hall (k, v)).
Qed.

(** ** The discovered descriptors *)

Lemma omap_NoDup_keys {A B} (f : str * A → option B) (l : list (str * A)) :
  (∀ x y p, f x = Some p → f y = Some p → x.1 = y.1) →
  NoDup l.*1 → NoDup (omap f l).
Proof.
  intros Hf. induction l as [|x l IH]; csimpl; [constructor|].
  intros [Hx H]%NoDup_cons. destruct (f x) as [p|] eqn:Hp; [|by apply IH].
  apply NoDup_cons. split; [|by apply IH].
  intros (y & Hin & Hy)%list_elem_of_omap. apply Hx.
  rewrite (Hf x y p Hp Hy). apply list_elem_of_fmap. by exists y.
Qed.

Lemma omap_length_le {A B} (f : A → option B) (l : list A) :
  length (omap f l) ≤ length l.
Proof.
  induction l as [|x l IH]; csimpl; [done|].
  destruct (f x); simpl; lia.
Qed.

Lemma glob_skills_NoDup (t : node) : NoDup (glob_skills t).
Proof.
  unfold glob_skills.
  destruct (lookup_path t [str_of "skills"]) as [[| |es]|];
    try apply NoDup_nil_2.
  apply omap_NoDup_keys; [|apply NoDup_fst_map_to_list].
  intros [d n] [d' n'] p Hx Hy.
  destruct (lookup_path n _); [|done]. destruct (lookup_path n' _); [|done].
  injection Hx as <-. by injection Hy as <-.
Qed.

Lemma declared_name_trimmed (t : node) (p : path) (name : str) :
  declared_name t p = Some name → name ≠ [] ∧ strip name = name.
Proof.
  unfold declared_name. destruct (read_text t p) as [text|]; [|done].
  destruct (strip _) as [|c s] eqn:Hs; [done|]. intros [= <-].
  split; [done|]. by rewrite <- Hs, strip_idem.
Qed.

(** [collect_skills] returns exactly when every descriptor
    [skills/<d>/SKILL.md] that exists is a regular file that reads as
    UTF-8 text, neither a directory nor a file with other bytes, and
    then gives the declared names that are not blank, trimmed, in the
    order of the sorted paths. *)
Theorem collect_skills_names (t : node) (names : list str) :
  collect_skills t = Ok names ↔
  (∀ d, path_exists t [str_of "skills"; d; str_of "SKILL.md"] = true →
        ∃ text, lookup_path t [str_of "skills"; d; str_of "SKILL.md"]
                = Some (File text))
  ∧ names = omap (declared_name t) (sorted_paths (glob_skills t)).
Proof.
  assert (Hfile : ∀ p,
    (∃ text, read_text t p = Ok text) ↔
    (∃ text, lookup_path t p = Some (File text))).
  { intros p. unfold read_text.
    destruct (lookup_path t p) as [[text| |es]|]; split;
      intros [text' H]; try done; by exists text. }
  unfold collect_skills. split.
  - intros H. split.
    + intros d Hd. apply Hfile.
      apply (collect_loop_reads _ _ _ _ H), sorted_paths_elem, glob_skills_spec.
      by exists d.
    + pose proof (collect_loop_reads _ _ _ _ H) as Hr.
      rewrite (collect_loop_names _ _ _ Hr) in H. by injection H as <-.
  - intros [Hr ->]. rewrite collect_loop_names; [done|].
    intros p (d & -> & Hp)%sorted_paths_elem%glob_skills_spec.
    by apply Hfile, Hr.
Qed.

(** Every collected name is non-empty and trimmed, and there are at most
    as many names as descriptors. *)
Theorem collected_names_trimmed (t : node) (names : list str) :
  collect_skills t = Ok names →
  Forall (fun name => name ≠ [] ∧ strip name = name) names
  ∧ length names ≤ length (glob_skills t).
Proof.
  intros H. unfold collect_skills in H.
  rewrite (collect_loop_names _ _ _ (collect_loop_reads _ _ _ _ H)) in H.
  injection H as <-. split.
  - apply Forall_forall. intros name (p & _ & Hp)%list_elem_of_omap.
    by apply (declared_name_trimmed t p).
  - simpl. etrans; [apply omap_length_le|].
    unfold sorted_paths. by rewrite merge_sort_Permutation.
Qed.

(** The descriptors that [collect_skills] visits are the existing paths
    [skills/<d>/SKILL.md], each once, in the order of [pathlib]. *)
Theorem discovered_descriptors (t : node) :
  (∀ p, p ∈ sorted_paths (glob_skills t) ↔
        ∃ d, p = [str_of "skills"; d; str_of "SKILL.md"]
             ∧ path_exists t p = true)
  ∧ NoDup (sorted_paths (glob_skills t))
  ∧ Sorted (fun p q => Is_true (path_leb p q)) (sorted_paths (glob_skills t)).
Proof.
  split; [|split].
  - intros p. by rewrite sorted_paths_elem, glob_skills_spec.
  - unfold sorted_paths. rewrite merge_sort_Permutation.
    apply glob_skills_NoDup.
  - apply Sorted_merge_sort. intros p q.
    destruct (path_leb_total p q) as [H|H]; rewrite H; [by left|by right].
Qed.

(** ** More on the builders and the sync engine *)

Section more.

Variable json_loads : str -> option json.
Variable json_dumps : json -> str.
Variable parse_args : list str -> parsed.

Local Abbreviation load_json := (load_json json_loads).
Local Abbreviation build_cursor_plugin_manifest :=
  (build_cursor_plugin_manifest json_loads).
Local Abbreviation extract_mcp_from_gemini :=
  (extract_mcp_from_gemini json_loads).
Local Abbreviation build_mcp_config := (build_mcp_config json_loads).
Local Abbreviation render_json := (render_json json_dumps).
Local Abbreviation main := (main json_loads json_dumps parse_args).

(** The metadata file is required: without it the run fails in either
    mode with [FileNotFoundError] for its path, before anything is
    written. *)
Theorem missing_metadata_is_fatal (argv : list str) (check : bool)
    (w : world) :
  parse_args argv = Namespace check →
  lookup_path (tree w) CLAUDE_PLUGIN_MANIFEST = None →
  main argv w = (Uncaught (FileNotFoundError CLAUDE_PLUGIN_MANIFEST), w).
Proof.
  intros Hargs H. apply (main_builder_raises _ _ _ argv check); [done|].
  left.
  unfold Script.build_cursor_plugin_manifest, Script.load_json, path_exists.
  by rewrite H.
Qed.

Lemma extract_mcp_nonblank (t : node) (server_name url : str) :
  extract_mcp_from_gemini t = Ok (server_name, url) → strip url ≠ [].
Proof.
  assert (Hd : strip DEFAULT_MCP_URL ≠ []) by (by vm_compute).
  unfold Script.extract_mcp_from_gemini, default_mcp.
  destruct (path_exists t GEMINI_EXTENSION); cbn [negb];
    [|by intros [= _ <-]].
  destruct (load_json t GEMINI_EXTENSION) as [loaded|e]; [|done].
  cbn [mbind result_bind].
  destruct (as_dict loaded) as [data|e]; [|done]. cbn [mbind result_bind].
  destruct (get (str_of "mcpServers") data) as [| | | | | |servers];
    try (by intros [= _ <-]).
  destruct servers as [|[name value] servers]; [by intros [= _ <-]|].
  destruct (dict_get name _) as [[| | | | | |cfg]|];
    try (by intros [= _ <-]).
  destruct (py_or _ _) as [| | | |u| |]; try (by intros [= _ <-]).
  destruct (strip u) as [|c s] eqn:Hu; [by intros [= _ <-]|].
  intros [= _ <-]. by rewrite Hu.
Qed.

(** An MCP document that is built has one server entry, whose only field
    is a [url] with a character that is not white space. *)
Theorem mcp_document_shape (t : node) (c : json) :
  build_mcp_config t = Ok c →
  ∃ server_name url,
    extract_mcp_from_gemini t = Ok (server_name, url)
    ∧ c = JDict [(str_of "mcpServers",
                  JDict [(server_name, JDict [(str_of "url", JStr url)])])]
    ∧ strip url ≠ [].
Proof.
  unfold Script.build_mcp_config.
  destruct (extract_mcp_from_gemini t) as [[server_name url]|e] eqn:He;
    [|done].
  cbn [mbind result_bind]. intros [= <-]. exists server_name, url.
  split; [done|]. split; [done|]. by apply (extract_mcp_nonblank t server_name).
Qed.

(** An extension config that is valid JSON without being a mapping makes
    the MCP config builder raise [AttributeError]: there is no fallback
    to the defaults for it. *)
Theorem extension_config_not_a_mapping (t : node) (v : json) :
  load_json t GEMINI_EXTENSION = Ok v →
  (∀ data, v ≠ JDict data) →
  extract_mcp_from_gemini t = Raise AttributeError
  ∧ build_mcp_config t = Raise AttributeError.
Proof.
  intros Hl Hv.
  assert (He : extract_mcp_from_gemini t = Raise AttributeError).
  { unfold Script.extract_mcp_from_gemini.
    rewrite (load_json_exists _ _ _ _ Hl), Hl. cbn [negb mbind result_bind].
    destruct v; try done. by destruct (Hv d). }
  split; [done|]. unfold Script.build_mcp_config. by rewrite He.
Qed.

(** [write_or_check] in check mode, by what the path holds. *)
Lemma write_or_check_check_value (p : path) (content : str) (w : world) :
  write_or_check p content true w =
  (match lookup_path (tree w) p with
   | Some (File text) => Ok (bool_decide (text = content))
   | Some Binary => Raise UnicodeDecodeError
   | Some (Dir _) => Raise (IsADirectoryError p)
   | None => Ok false
   end, w).
Proof.
  unfold write_or_check. unfold_M. unfold path_exists, read_text.
  destruct (lookup_path (tree w) p) as [[text| |es]|];
    cbn [fmap result_fmap]; [|done|done|done].
  destruct (decide (text = content)) as [->|Hne].
  - by rewrite !bool_decide_eq_true_2.
  - rewrite !bool_decide_eq_false_2; [done|done|]. by intros [= ?].
Qed.

(** A call of [write_or_check] that returns gives [True] exactly when the
    file holds the content after it; in check mode it changes nothing,
    in write mode it always gives [True]. *)
Theorem write_or_check_returns (c : str) (p : path) (content : str)
    (check : bool) (w w' : world) (b : bool) :
  write_or_check (c :: p) content check w = (Ok b, w') →
  (b = true ↔ lookup_path (tree w') (c :: p) = Some (File content))
  ∧ (check = true → w' = w)
  ∧ (check = false → b = true).
Proof.
  destruct check.
  - rewrite write_or_check_check_value.
    destruct (lookup_path (tree w) (c :: p)) as [[text| |es]|] eqn:Hl;
      intros [= <- <-]; rewrite ?Hl; (split; [|done]).
    + rewrite bool_decide_eq_true. split; [by intros ->|by intros [= ?]].
    + done.
  - intros H.
    assert (Hb : b = true).
    { revert H. unfold write_or_check. unfold_M.
      destruct (if path_exists _ _ then _ else _) as [current|e]; [|done].
      destruct (bool_decide _); [by intros [= <- _]|].
      destruct (mkdir _ _) as [[[]|e] w1]; [|done].
      destruct (write_text _ _ _) as [[[]|e] w2]; [|done].
      by intros [= <- _]. }
    apply write_or_check_write in H as [Hl _]. by rewrite Hb.
Qed.

(** Check mode reports that the artefacts are up to date exactly when
    both builders succeed and each output file holds the rendered
    document. *)
Theorem check_up_to_date_iff (argv : list str) (w : world) :
  parse_args argv = Namespace true →
  main argv w = (Returned up_to_date_lines, w) ↔
  ∃ m c,
    build_cursor_plugin_manifest (tree w) = Ok m
    ∧ build_mcp_config (tree w) = Ok c
    ∧ lookup_path (tree w) CURSOR_PLUGIN_MANIFEST
      = Some (File (render_json (JDict m)))
    ∧ lookup_path (tree w) CURSOR_MCP_CONFIG = Some (File (render_json c)).
Proof.
  intros Hargs. unfold_main with Hargs. split.
  - destruct (build_cursor_plugin_manifest (tree w)) as [m|e]; [|done].
    destruct (build_mcp_config (tree w)) as [c|e]; [|done].
    cbn [fmap result_fmap compose]. rewrite !write_or_check_check_value.
    intros H. exists m, c. split; [done|]. split; [done|].
    destruct (lookup_path (tree w) CURSOR_PLUGIN_MANIFEST) as [[t1| |?]|];
      [|done|done|];
      (destruct (lookup_path (tree w) CURSOR_MCP_CONFIG) as [[t2| |?]|];
        [|done|done|]).
    + destruct (decide (t1 = render_json (JDict m))) as [->|?];
        destruct (decide (t2 = render_json c)) as [->|?]; [done|..];
        rewrite ?bool_decide_eq_true_2, ?bool_decide_eq_false_2 in H by done;
        done.
    + destruct (bool_decide _) in H; done.
    + destruct (bool_decide _) in H; done.
    + done.
  - intros (m & c & -> & -> & H1 & H2). cbn [fmap result_fmap compose].
    rewrite !write_or_check_check_value, H1, H2.
    by rewrite !bool_decide_eq_true_2.
Qed.

(** A run leaves through [sys.exit] in three ways, each with the tree
    and the trace as they were: with status 0 when the parser printed
    the help, with status 2 when it refused the command line, and with
    status 1 in check mode, when both builders succeeded and some output
    does not hold the rendered document; the message then lists the
    outdated paths, the manifest first. Once the arguments are parsed, a
    write-mode run never leaves in this way. *)
Theorem exit_statuses (argv : list str) (w w' : world) (code : Z)
    (stdout stderr : list str) :
  main argv w = (Exited code stdout stderr, w') →
  w' = w
  ∧ ((code = 0%Z ∧ parse_args argv = Help stdout ∧ stderr = [])
     ∨ (code = 2%Z ∧ parse_args argv = UsageError stderr ∧ stdout = [])
     ∨ (code = 1%Z ∧ parse_args argv = Namespace true ∧ stdout = []
        ∧ ∃ m c,
            build_cursor_plugin_manifest (tree w) = Ok m
            ∧ build_mcp_config (tree w) = Ok c
            ∧ let outdated :=
                outdated_path (tree w) CURSOR_PLUGIN_MANIFEST
                  (render_json (JDict m))
                ++ outdated_path (tree w) CURSOR_MCP_CONFIG (render_json c) in
              outdated ≠ [] ∧ stderr = drift_lines outdated)).
Proof.
  unfold Script.main, main_body.
  destruct (parse_args argv) as [check|out|err] eqn:Hargs.
  2: { intros [= <- <- <- <-]. split; [done|]. by left. }
  2: { intros [= <- <- <- <-]. split; [done|]. right. by left. }
  unfold_M.
  destruct (build_cursor_plugin_manifest (tree w)) as [m|e]; [|done].
  destruct (build_mcp_config (tree w)) as [c|e]; [|done].
  cbn [fmap result_fmap compose]. destruct check.
  - rewrite !write_or_check_check_value. unfold outdated_path.
    intros H.
    assert (Hgoal : code = 1%Z ∧ stdout = [] ∧ w' = w
      ∧ let outdated :=
          match lookup_path (tree w) CURSOR_PLUGIN_MANIFEST with
          | Some (File text) =>
              if bool_decide (text = render_json (JDict m)) then []
              else [path_str CURSOR_PLUGIN_MANIFEST]
          | _ => [path_str CURSOR_PLUGIN_MANIFEST]
          end
          ++ match lookup_path (tree w) CURSOR_MCP_CONFIG with
             | Some (File text) =>
                 if bool_decide (text = render_json c) then []
                 else [path_str CURSOR_MCP_CONFIG]
             | _ => [path_str CURSOR_MCP_CONFIG]
             end in
        outdated ≠ [] ∧ stderr = drift_lines outdated).
    { destruct (lookup_path (tree w) CURSOR_PLUGIN_MANIFEST) as [[t1| |?]|];
        [|done|done|];
        (destruct (lookup_path (tree w) CURSOR_MCP_CONFIG) as [[t2| |?]|];
          [|done|done|]);
        repeat (destruct (bool_decide _) in H |- *);
        try done; by injection H as <- <- <- <-. }
    destruct Hgoal as (-> & -> & -> & Hout). split; [done|].
    right. right. repeat split. by exists m, c.
  - destruct (write_or_check CURSOR_PLUGIN_MANIFEST _ false w)
      as [[ok_plugin|e] wa]; [|done].
    by destruct (write_or_check CURSOR_MCP_CONFIG _ false wa) as [[ok_mcp|e] wb].
Qed.

(** What a write-mode run that returned has done. *)
Lemma main_write_returned (argv : list str) (w w1 : world)
    (out : list str) :
  parse_args argv = Namespace false →
  main argv w = (Returned out, w1) →
  out = [str_of "Wrote " ++ path_str CURSOR_PLUGIN_MANIFEST;
         str_of "Wrote " ++ path_str CURSOR_MCP_CONFIG]
  ∧ ∃ m c,
      build_cursor_plugin_manifest (tree w1) = Ok m
      ∧ build_mcp_config (tree w1) = Ok c
      ∧ lookup_path (tree w1) CURSOR_PLUGIN_MANIFEST
        = Some (File (render_json (JDict m)))
      ∧ lookup_path (tree w1) CURSOR_MCP_CONFIG = Some (File (render_json c)).
Proof.
  intros Hargs H. unfold_main with Hargs in H.
  destruct (build_cursor_plugin_manifest (tree w)) as [m|e] eqn:Hm; [|done].
  destruct (build_mcp_config (tree w)) as [c|e] eqn:Hc; [|done].
  cbn [fmap result_fmap compose] in H.
  destruct (write_or_check CURSOR_PLUGIN_MANIFEST _ false w)
    as [[ok_plugin|e] wa] eqn:H1; [|done].
  destruct (write_or_check CURSOR_MCP_CONFIG _ false wa)
    as [[ok_mcp|e] wb] eqn:H2; [|done].
  injection H as <- <-. split; [done|].
  apply (write_or_check_write (str_of ".cursor-plugin")
           [str_of "plugin.json"]) in H1 as [Hl1 Hf1].
  apply (write_or_check_write (str_of ".mcp.json") []) in H2 as [Hl2 Hf2].
  destruct (builders_agree json_loads (tree w) (tree wb)
              (input_entries_kept _ _ _ Hf1 Hf2)) as [Hm' Hc'].
  exists m, c. rewrite <- Hm', <- Hc'. repeat split; [done|done| |done].
  rewrite <- Hl1. symmetry. apply same_entry_lookup, Hf2.
  by apply (bool_decide_eq_false_1 _); vm_compute.
Qed.

(** After a write-mode run that returned, which always prints the two
    [Wrote] lines, a check-mode run reports that the artefacts are up to
    date. *)
Theorem write_then_check (argv argv' : list str) (w w1 : world)
    (out : list str) :
  parse_args argv = Namespace false →
  parse_args argv' = Namespace true →
  main argv w = (Returned out, w1) →
  out = [str_of "Wrote " ++ path_str CURSOR_PLUGIN_MANIFEST;
         str_of "Wrote " ++ path_str CURSOR_MCP_CONFIG]
  ∧ main argv' w1 = (Returned up_to_date_lines, w1).
Proof.
  intros Hargs Hargs' H.
  apply (main_write_returned _ _ _ _ Hargs) in H
    as (Hout & m & c & Hm & Hc & H1 & H2).
  split; [done|]. unfold_main with Hargs'.
  rewrite Hm, Hc. cbn [fmap result_fmap compose].
  rewrite (write_or_check_current _ _ true w1 H1).
  by rewrite (write_or_check_current _ _ true w1 H2).
Qed.

(** Whatever it returns or raises, [write_or_check] touches no entry of
    [ROOT] but the first component of its path, and calls [mkdir] and
    [write_text] for that path only. *)
Lemma write_or_check_frame (c : str) (p : path) (content : str)
    (check : bool) (w w' : world) (r : result bool) :
  write_or_check (c :: p) content check w = (r, w') →
  (∀ k, k ≠ c → same_entry k (tree w) (tree w'))
  ∧ ∃ events,
      trace w' = trace w ++ events
      ∧ events `sublist_of`
          [Mkdir (parent (c :: p)); WriteText (c :: p) content].
Proof.
  assert (Hsame : (∀ k, k ≠ c → same_entry k (tree w) (tree w))
    ∧ ∃ events, trace w = trace w ++ events
        ∧ events `sublist_of`
            [Mkdir (parent (c :: p)); WriteText (c :: p) content]).
  { split; [done|]. exists []. rewrite app_nil_r. split; [done|].
    apply sublist_nil_l. }
  unfold write_or_check. unfold_M.
  destruct (if path_exists _ _ then _ else _) as [current|e];
    [|by intros [= _ <-]].
  destruct (bool_decide _); [by intros [= _ <-]|].
  destruct check; [by intros [= _ <-]|].
  unfold mkdir at 1.
  destruct (mkdir_parents (tree w) (parent (c :: p))) as [t1|e] eqn:Hm;
    [|by intros [= _ <-]].
  unfold write_text. cbn [tree trace].
  destruct (write_below _ _ t1 _) as [t2|e] eqn:Hw.
  - assert (∀ r', (r', World t2 ((trace w ++ [Mkdir (parent (c :: p))])
                                  ++ [WriteText (c :: p) content]))
                  = (r, w') →
      (∀ k, k ≠ c → same_entry k (tree w) (tree w'))
      ∧ ∃ events,
          trace w' = trace w ++ events
          ∧ events `sublist_of`
              [Mkdir (parent (c :: p)); WriteText (c :: p) content]) as Hgoal.
    { intros r' [= _ <-]. cbn [tree trace]. split.
      - intros k Hk. apply (same_entry_trans k _ t1).
        + by apply (mkdir_parent_frame _ _ c k p).
        + by eapply write_below_frame.
      - eexists. rewrite <- app_assoc. split; [reflexivity|done]. }
    destruct (encodable content); apply Hgoal.
  - intros [= _ <-]. cbn [tree trace]. split.
    + intros k Hk. by apply (mkdir_parent_frame _ _ c k p).
    + eexists. split; [reflexivity|]. apply sublist_skip, sublist_nil_l.
Qed.

(** A run, whatever its arguments and its outcome, changes no entry of
    [ROOT] other than [.cursor-plugin] and [.mcp.json], so none of its
    inputs, and it calls [mkdir] and [write_text] for the output paths
    only, at most once each and the manifest first. *)
Theorem never_writes_elsewhere (argv : list str) (w w' : world)
    (o : outcome) :
  main argv w = (o, w') →
  same_inputs (tree w) (tree w')
  ∧ (∀ k, k ≠ str_of ".cursor-plugin" → k ≠ str_of ".mcp.json" →
          same_entry k (tree w) (tree w'))
  ∧ ∃ events content_plugin content_mcp,
      trace w' = trace w ++ events
      ∧ events `sublist_of`
          [Mkdir CURSOR_PLUGIN_DIR;
           WriteText CURSOR_PLUGIN_MANIFEST content_plugin;
           Mkdir []; WriteText CURSOR_MCP_CONFIG content_mcp].
Proof.
  assert (Hgoal : ∀ check wa wb r1 r2 c1 c2,
    write_or_check CURSOR_PLUGIN_MANIFEST c1 check w = (r1, wa) →
    (wb = wa ∨ write_or_check CURSOR_MCP_CONFIG c2 check wa = (r2, wb)) →
    same_inputs (tree w) (tree wb)
    ∧ (∀ k, k ≠ str_of ".cursor-plugin" → k ≠ str_of ".mcp.json" →
            same_entry k (tree w) (tree wb))
    ∧ ∃ events content_plugin content_mcp,
        trace wb = trace w ++ events
        ∧ events `sublist_of`
            [Mkdir CURSOR_PLUGIN_DIR;
             WriteText CURSOR_PLUGIN_MANIFEST content_plugin;
             Mkdir []; WriteText CURSOR_MCP_CONFIG content_mcp]).
  { intros check wa wb r1 r2 c1 c2 H1 H2.
    apply (write_or_check_frame (str_of ".cursor-plugin")
             [str_of "plugin.json"]) in H1 as (Hf1 & ev1 & Ht1 & Hs1).
    assert (H2' : (∀ k, k ≠ str_of ".mcp.json" →
                        same_entry k (tree wa) (tree wb))
      ∧ ∃ ev2, trace wb = trace wa ++ ev2
          ∧ ev2 `sublist_of` [Mkdir []; WriteText CURSOR_MCP_CONFIG c2]).
    { destruct H2 as [->|H2].
      - split; [done|]. exists []. rewrite app_nil_r. split; [done|].
        apply sublist_nil_l.
      - by apply (write_or_check_frame (str_of ".mcp.json") []) in H2. }
    destruct H2' as (Hf2 & ev2 & Ht2 & Hs2).
    split; [by apply (input_entries_kept _ (tree wa))|]. split.
    - intros k Hk1 Hk2. apply (same_entry_trans k _ (tree wa)); auto.
    - exists (ev1 ++ ev2), c1, c2. rewrite Ht2, Ht1, <- app_assoc.
      split; [done|].
      by apply (sublist_app ev1
                  [Mkdir CURSOR_PLUGIN_DIR;
                   WriteText CURSOR_PLUGIN_MANIFEST c1]). }
  assert (Hnone : same_inputs (tree w) (tree w)
    ∧ (∀ k, k ≠ str_of ".cursor-plugin" → k ≠ str_of ".mcp.json" →
            same_entry k (tree w) (tree w))
    ∧ ∃ events content_plugin content_mcp,
        trace w = trace w ++ events
        ∧ events `sublist_of`
            [Mkdir CURSOR_PLUGIN_DIR;
             WriteText CURSOR_PLUGIN_MANIFEST content_plugin;
             Mkdir []; WriteText CURSOR_MCP_CONFIG content_mcp]).
  { split; [done|]. split; [done|]. exists [], [], []. rewrite app_nil_r.
    split; [done|]. apply sublist_nil_l. }
  unfold Script.main, main_body.
  destruct (parse_args argv) as [check|out|err];
    [|by intros [= _ <-]|by intros [= _ <-]].
  unfold_M.
  destruct (build_cursor_plugin_manifest (tree w)) as [m|e];
    [|by intros [= _ <-]].
  destruct (build_mcp_config (tree w)) as [c|e]; [|by intros [= _ <-]].
  cbn [fmap result_fmap compose].
  destruct (write_or_check CURSOR_PLUGIN_MANIFEST _ check w)
    as [[ok_plugin|e] wa] eqn:H1.
  - destruct (write_or_check CURSOR_MCP_CONFIG _ check wa)
      as [[ok_mcp|e] wb] eqn:H2.
    + destruct check; [destruct (_ ++ _)|]; intros [= _ <-];
        eapply Hgoal; eauto.
    + intros [= _ <-]. eapply Hgoal; eauto.
  - intros [= _ <-]. eapply (Hgoal check wa wa _ (Ok true) _ []); eauto.
Qed.

(** Write mode is not atomic. When [.cursor-plugin] does not exist yet
    and [.mcp.json] is a directory, the run creates the directory and
    opens the manifest file. With a rendered manifest that has an
    encoding, it writes the manifest and then fails on the second output;
    with one that holds a lone surrogate, it fails at once with
    [UnicodeEncodeError] and leaves the manifest file empty. *)
Theorem write_mode_is_not_atomic (argv : list str) (w : world)
    (m : dict json) (c : json) (es : gmap str node) :
  parse_args argv = Namespace false →
  build_cursor_plugin_manifest (tree w) = Ok m →
  build_mcp_config (tree w) = Ok c →
  lookup_path (tree w) CURSOR_PLUGIN_DIR = None →
  lookup_path (tree w) CURSOR_MCP_CONFIG = Some (Dir es) →
  let content := render_json (JDict m) in
  ∃ t',
    main argv w
    = (Uncaught (if encodable content
                 then IsADirectoryError CURSOR_MCP_CONFIG
                 else UnicodeEncodeError),
       World t' (trace w ++ [Mkdir CURSOR_PLUGIN_DIR;
                             WriteText CURSOR_PLUGIN_MANIFEST content]))
    ∧ lookup_path t' CURSOR_PLUGIN_MANIFEST
      = Some (File (if encodable content then content else []))
    ∧ lookup_path t' CURSOR_MCP_CONFIG = Some (Dir es).
Proof.
  intros Hargs Hm Hc Hdir Hmcp content. destruct w as [t tr].
  cbn [tree trace] in *.
  destruct t as [| |root]; [done|done|].
  unfold CURSOR_PLUGIN_DIR, CURSOR_MCP_CONFIG in Hdir, Hmcp.
  cbn [lookup_path] in Hdir, Hmcp.
  destruct (root !! str_of ".cursor-plugin") as [?|] eqn:Hd; [done|].
  destruct (root !! str_of ".mcp.json") as [n|] eqn:Hj; [|done].
  injection Hmcp as ->.
  set (written := if encodable content then content else []).
  set (t1 := Dir (<[str_of ".cursor-plugin" := Dir ∅]> root)).
  set (t2 := Dir (<[str_of ".cursor-plugin" :=
                      Dir (<[str_of "plugin.json" := File written]> ∅)]>
                    (<[str_of ".cursor-plugin" := Dir ∅]> root))).
  assert (Hmk : mkdir_parents (Dir root) (parent CURSOR_PLUGIN_MANIFEST)
                = Ok t1).
  { unfold mkdir_parents, CURSOR_PLUGIN_MANIFEST, CURSOR_PLUGIN_DIR.
    cbn [app parent removelast mkdir_below]. by rewrite Hd. }
  assert (Hwr : write_below CURSOR_PLUGIN_MANIFEST written t1
                  CURSOR_PLUGIN_MANIFEST = Ok t2).
  { unfold CURSOR_PLUGIN_MANIFEST, CURSOR_PLUGIN_DIR, t1.
    cbn [app write_below]. rewrite lookup_insert_eq.
    cbn [write_below]. by rewrite lookup_empty. }
  assert (H1 : write_or_check CURSOR_PLUGIN_MANIFEST content false
                 (World (Dir root) tr)
               = (if encodable content then Ok true
                  else Raise UnicodeEncodeError,
                  World t2 (tr ++ [Mkdir CURSOR_PLUGIN_DIR;
                                   WriteText CURSOR_PLUGIN_MANIFEST content]))).
  { unfold write_or_check. unfold_M. unfold path_exists, read_text.
    cbn [tree].
    assert (Hl : lookup_path (Dir root) CURSOR_PLUGIN_MANIFEST = None).
    { unfold CURSOR_PLUGIN_MANIFEST, CURSOR_PLUGIN_DIR.
      cbn [app lookup_path]. by rewrite Hd. }
    rewrite Hl, bool_decide_eq_false_2 by done.
    unfold mkdir, write_text. cbn [tree trace]. rewrite Hmk.
    cbn [tree trace]. fold written. rewrite Hwr, <- app_assoc.
    by destruct (encodable content). }
  assert (Hl2 : lookup_path t2 CURSOR_MCP_CONFIG = Some (Dir es)).
  { unfold CURSOR_MCP_CONFIG, t2. cbn [lookup_path].
    rewrite !lookup_insert_ne
      by (by apply (bool_decide_eq_false_1 _); vm_compute).
    by rewrite Hj. }
  assert (H2 : ∀ tr' content',
    write_or_check CURSOR_MCP_CONFIG content' false (World t2 tr')
    = (Raise (IsADirectoryError CURSOR_MCP_CONFIG), World t2 tr')).
  { intros tr' content'. unfold write_or_check. unfold_M.
    unfold path_exists, read_text. cbn [tree]. by rewrite Hl2. }
  exists t2. split; [|split; [|done]].
  - unfold_main with Hargs. cbn [tree].
    rewrite Hm, Hc. cbn [fmap result_fmap compose]. fold content.
    rewrite H1. destruct (encodable content); [|done]. by rewrite H2.
  - unfold CURSOR_PLUGIN_MANIFEST, CURSOR_PLUGIN_DIR, t2.
    cbn [app lookup_path]. by rewrite !lookup_insert_eq.
Qed.


End more.

(** ** The further properties on the sample inputs *)

Lemma missing_metadata_is_fatal_witness :
  lookup_path no_metadata_root CLAUDE_PLUGIN_MANIFEST = None
  ∧ main more_loads sample_dumps sample_parse_args check_argv
      (start no_metadata_root)
    = (Uncaught (FileNotFoundError CLAUDE_PLUGIN_MANIFEST),
       start no_metadata_root).
Proof.
  assert (Hargs : sample_parse_args check_argv = Namespace true)
    by (vm_compute; reflexivity).
  assert (H : lookup_path (tree (start no_metadata_root))
                CLAUDE_PLUGIN_MANIFEST = None) by (vm_compute; reflexivity).
  split; [exact H|].
  exact (missing_metadata_is_fatal more_loads sample_dumps sample_parse_args
           check_argv true _ Hargs H).
Defined.

Lemma manifest_name_and_literals_witness :
  build_cursor_plugin_manifest more_loads sample_root = Ok sample_manifest
  ∧ ∃ name,
      dict_get (str_of "name") sample_manifest = Some (JStr name)
      ∧ (name_ok name = true ∨ ∃ s, name = s ++ [10%N] ∧ name_ok s = true).
Proof.
  assert (H : build_cursor_plugin_manifest more_loads sample_root
              = Ok sample_manifest) by (vm_compute; reflexivity).
  split; [exact H|].
  destruct (manifest_name_and_literals more_loads sample_root
              sample_manifest H) as ((src & name & _ & _ & Hn & Hr) & _).
  exists name. split; [exact Hn | exact Hr].
Defined.

Lemma metadata_without_name_witness :
  build_cursor_plugin_manifest more_loads
    (sample_tree (Some nameless_text) None sample_skills)
  = Raise (ValueError missing_name_message).
Proof.
  apply (metadata_without_name more_loads _
           [(str_of "version", JStr (str_of "1.0.0"))]).
  - vm_compute. reflexivity.
  - intros c name. vm_compute. discriminate.
Defined.

Lemma invalid_name_reported_first_witness :
  build_cursor_plugin_manifest more_loads
    (sample_tree (Some upper_name_text) None [])
  = Raise (ValueError (invalid_name_message (str_of "My_Plugin"))).
Proof.
  apply (invalid_name_reported_first more_loads _
           [(str_of "name", JStr (str_of "My_Plugin"))]).
  - vm_compute. reflexivity.
  - vm_compute. reflexivity.
  - vm_compute. discriminate.
  - vm_compute. reflexivity.
  - vm_compute. discriminate.
Defined.

Lemma metadata_not_a_mapping_witness :
  build_cursor_plugin_manifest more_loads
    (sample_tree (Some list_text) None sample_skills)
  = Raise AttributeError.
Proof.
  apply (metadata_not_a_mapping more_loads _ (JList [])).
  - vm_compute. reflexivity.
  - intros src. discriminate.
Defined.

Lemma manifest_keys_witness :
  sample_manifest.*1
  = [str_of "name"; str_of "skills"; str_of "mcpServers";
     str_of "version"; str_of "license"].
Proof.
  assert (Hl : load_json more_loads sample_root CLAUDE_PLUGIN_MANIFEST
               = Ok manifest_doc) by (vm_compute; reflexivity).
  assert (Hb : build_cursor_plugin_manifest more_loads sample_root
               = Ok sample_manifest) by (vm_compute; reflexivity).
  rewrite (proj1 (manifest_keys more_loads sample_root _ _ Hl Hb)).
  vm_compute. reflexivity.
Defined.

Lemma parse_frontmatter_trimmed_witness :
  (str_of "name", str_of "alpha") ∈ parse_frontmatter skill_text
  ∧ strip (str_of "alpha") = str_of "alpha".
Proof.
  assert (H : (str_of "name", str_of "alpha") ∈ parse_frontmatter skill_text)
    by (apply (bool_decide_unpack _); vm_compute; exact I).
  split; [exact H|].
  exact (proj2 (parse_frontmatter_trimmed skill_text _ _ H)).
Defined.

Lemma frontmatter_block_found_witness :
  is_Some (re_search FRONTMATTER_RE skill_text)
  ∧ ¬ is_Some (re_search FRONTMATTER_RE (str_of "Body only.")).
Proof.
  split.
  - apply (proj1 (frontmatter_block_found skill_text)).
    exists [],
      (str_of "name: draft" ++ [10%N] ++ str_of "description: a skill"
       ++ [10%N] ++ str_of "no colon here" ++ [10%N]
       ++ str_of "name : alpha "),
      ([10%N] ++ str_of "Body." ++ [10%N]).
    split; vm_compute; reflexivity.
  - intros H.
    apply (proj1 (frontmatter_block_found (str_of "Body only."))) in H
      as (ws & block & tail & H & _).
    vm_compute in H. discriminate.
Defined.

Lemma collected_names_trimmed_witness :
  collect_skills sample_root = Ok [str_of "alpha"]
  ∧ Forall (fun name => name ≠ [] ∧ strip name = name) [str_of "alpha"].
Proof.
  assert (H : collect_skills sample_root = Ok [str_of "alpha"])
    by (vm_compute; reflexivity).
  split; [exact H|].
  exact (proj1 (collected_names_trimmed sample_root _ H)).
Defined.

Lemma mcp_document_shape_witness :
  build_mcp_config more_loads sample_root = Ok sample_mcp
  ∧ ∃ server_name url,
      extract_mcp_from_gemini more_loads sample_root = Ok (server_name, url)
      ∧ strip url ≠ [].
Proof.
  assert (H : build_mcp_config more_loads sample_root = Ok sample_mcp)
    by (vm_compute; reflexivity).
  split; [exact H|].
  destruct (mcp_document_shape more_loads sample_root _ H)
    as (server_name & url & He & _ & Hu).
  exists server_name, url. split; [exact He|exact Hu].
Defined.

Lemma extension_config_not_a_mapping_witness :
  build_mcp_config more_loads (sample_tree None (Some list_text) [])
  = Raise AttributeError.
Proof.
  apply (extension_config_not_a_mapping more_loads
           (sample_tree None (Some list_text) []) (JList [])).
  - vm_compute. reflexivity.
  - intros data. discriminate.
Defined.

Lemma write_or_check_returns_witness :
  write_or_check CURSOR_MCP_CONFIG (str_of "{}") true (start sample_root)
  = (Ok false, start sample_root)
  ∧ lookup_path sample_root CURSOR_MCP_CONFIG ≠ Some (File (str_of "{}")).
Proof.
  assert (H : write_or_check CURSOR_MCP_CONFIG (str_of "{}") true
                (start sample_root) = (Ok false, start sample_root))
    by (vm_compute; reflexivity).
  split; [exact H|].
  intros Hl.
  pose proof (proj2 (proj1 (write_or_check_returns (str_of ".mcp.json") []
                              _ _ _ _ _ H)) Hl) as Hb.
  discriminate Hb.
Defined.

Lemma check_up_to_date_iff_witness :
  main more_loads sample_dumps sample_parse_args check_argv after_first_run
  = (Returned up_to_date_lines, after_first_run).
Proof.
  assert (Hargs : sample_parse_args check_argv = Namespace true)
    by (vm_compute; reflexivity).
  apply (proj2 (check_up_to_date_iff more_loads sample_dumps
                  sample_parse_args check_argv after_first_run Hargs)).
  exists sample_manifest, sample_mcp.
  repeat split; vm_compute; reflexivity.
Defined.

Lemma exit_statuses_witness :
  main more_loads sample_dumps sample_parse_args check_argv
    (start sample_root)
  = (Exited 1 []
       (drift_lines [path_str CURSOR_PLUGIN_MANIFEST;
                     path_str CURSOR_MCP_CONFIG]),
     start sample_root)
  ∧ sample_parse_args check_argv = Namespace true.
Proof.
  assert (H : main more_loads sample_dumps sample_parse_args check_argv
                (start sample_root)
              = (Exited 1 []
                   (drift_lines [path_str CURSOR_PLUGIN_MANIFEST;
                                 path_str CURSOR_MCP_CONFIG]),
                 start sample_root)) by (vm_compute; reflexivity).
  split; [exact H|].
  destruct (exit_statuses more_loads sample_dumps sample_parse_args
              _ _ _ _ _ _ H) as (_ & [(Hc & _)|[(Hc & _)|(_ & Ha & _)]]).
  - discriminate Hc.
  - discriminate Hc.
  - exact Ha.
Defined.

Lemma write_then_check_witness :
  main more_loads sample_dumps sample_parse_args write_argv
    (start sample_root)
  = (Returned wrote_lines, after_first_run)
  ∧ main more_loads sample_dumps sample_parse_args check_argv
      after_first_run
    = (Returned up_to_date_lines, after_first_run).
Proof.
  assert (Hw : sample_parse_args write_argv = Namespace false)
    by (vm_compute; reflexivity).
  assert (Hc : sample_parse_args check_argv = Namespace true)
    by (vm_compute; reflexivity).
  assert (H : main more_loads sample_dumps sample_parse_args write_argv
                (start sample_root)
              = (Returned wrote_lines, after_first_run))
    by (vm_compute; reflexivity).
  split; [exact H|].
  exact (proj2 (write_then_check more_loads sample_dumps sample_parse_args
                  _ _ _ _ _ Hw Hc H)).
Defined.

Lemma never_writes_elsewhere_witness :
  main more_loads sample_dumps sample_parse_args write_argv
    (start sample_root)
  = (Returned wrote_lines, after_first_run)
  ∧ same_inputs sample_root (tree after_first_run).
Proof.
  assert (H : main more_loads sample_dumps sample_parse_args write_argv
                (start sample_root)
              = (Returned wrote_lines, after_first_run))
    by (vm_compute; reflexivity).
  split; [exact H|].
  exact (proj1 (never_writes_elsewhere more_loads sample_dumps
                  sample_parse_args _ _ _ _ H)).
Defined.

Lemma write_mode_is_not_atomic_witness :
  (∃ t',
     main more_loads sample_dumps sample_parse_args write_argv
       (start mcp_dir_root)
     = (Uncaught (IsADirectoryError CURSOR_MCP_CONFIG),
        World t' [Mkdir CURSOR_PLUGIN_DIR;
                  WriteText CURSOR_PLUGIN_MANIFEST
                    (render_json sample_dumps (JDict sample_manifest))])
     ∧ lookup_path t' CURSOR_PLUGIN_MANIFEST
       = Some (File (render_json sample_dumps (JDict sample_manifest))))
  ∧ ∃ t',
      main all_loads sample_dumps sample_parse_args write_argv
        (start surrogate_dir_root)
      = (Uncaught UnicodeEncodeError,
         World t' [Mkdir CURSOR_PLUGIN_DIR;
                   WriteText CURSOR_PLUGIN_MANIFEST
                     (render_json sample_dumps (JDict surrogate_manifest))])
      ∧ lookup_path t' CURSOR_PLUGIN_MANIFEST = Some (File []).
Proof.
  assert (Hw : sample_parse_args write_argv = Namespace false)
    by (vm_compute; reflexivity).
  split.
  - destruct (write_mode_is_not_atomic more_loads sample_dumps
                sample_parse_args write_argv (start mcp_dir_root)
                sample_manifest sample_mcp ∅ Hw
                ltac:(vm_compute; reflexivity)
                ltac:(vm_compute; reflexivity)
                ltac:(vm_compute; reflexivity)
                ltac:(vm_compute; reflexivity)) as (t' & Hmain & Hl & _).
    exists t'. split; [exact Hmain | exact Hl].
  - destruct (write_mode_is_not_atomic all_loads sample_dumps
                sample_parse_args write_argv (start surrogate_dir_root)
                surrogate_manifest default_document ∅ Hw
                ltac:(vm_compute; reflexivity)
                ltac:(vm_compute; reflexivity)
                ltac:(vm_compute; reflexivity)
                ltac:(vm_compute; reflexivity)) as (t' & Hmain & Hl & _).
    exists t'. split; [exact Hmain | exact Hl].
Defined.

